(** * merge_filter.py: a shallow embedding of the feed merge/filter pipeline

    Strings are Stdlib [string]s (ASCII); Python [str.lower], [str.strip],
    [str.startswith], the [in] operator and the regular expressions the
    source uses are written out over them.  Exceptions are the [Raise]
    branch of [result]; the run itself lives in a small state/error monad
    whose state is the log of fetched URLs. *)

From Stdlib Require Import String Ascii List ZArith Bool Lia Permutation Sorted.
Import ListNotations.
Open Scope string_scope.
Open Scope Z_scope.

(** ** Python exceptions and the error monad *)

Inductive exn :=
| KeyError (k : string)
| TypeError
| ValueError
| OverflowError.

Inductive result (A : Type) :=
| Ok (a : A)
| Raise (e : exn).
Arguments Ok {A} a.
Arguments Raise {A} e.

Definition rbind {A B} (m : result A) (f : A -> result B) : result B :=
  match m with Ok a => f a | Raise e => Raise e end.

Notation "x <-? m ;; k" := (rbind m (fun x => k))
  (at level 61, m at next level, right associativity).

(** ** String helpers (Python [str] methods on ASCII) *)

(** [str.isspace] on ASCII, which is also what [\s] matches. *)
Definition is_space (c : ascii) : bool :=
  let n := nat_of_ascii c in
  (n =? 32)%nat || ((9 <=? n)%nat && (n <=? 13)%nat)
  || ((28 <=? n)%nat && (n <=? 31)%nat).

Definition lower_char (c : ascii) : ascii :=
  let n := nat_of_ascii c in
  if ((65 <=? n)%nat && (n <=? 90)%nat) then ascii_of_nat (n + 32) else c.

(** [str.lower] *)
Fixpoint lower (s : string) : string :=
  match s with
  | EmptyString => EmptyString
  | String c r => String (lower_char c) (lower r)
  end.

Fixpoint lstrip (s : string) : string :=
  match s with
  | String c r => if is_space c then lstrip r else s
  | EmptyString => EmptyString
  end.

Definition rev_string (s : string) : string :=
  string_of_list_ascii (rev (list_ascii_of_string s)).

(** [str.strip] *)
Definition strip (s : string) : string :=
  rev_string (lstrip (rev_string (lstrip s))).

(** [str.startswith] *)
Fixpoint startswith (s p : string) : bool :=
  match p, s with
  | EmptyString, _ => true
  | String c p', String d s' => Ascii.eqb c d && startswith s' p'
  | String _ _, EmptyString => false
  end.

(** [needle in hay] for strings: try every start position. *)
Fixpoint py_in (needle hay : string) : bool :=
  startswith hay needle ||
  match hay with
  | EmptyString => false
  | String _ r => py_in needle r
  end.

(** Truthiness of an optional string ([None] and [""] are falsy). *)
Definition truthy (o : option string) : bool :=
  match o with
  | Some s => negb (String.eqb s "")
  | None => false
  end.

(** [x or y] for optional strings. *)
Definition or_str (o : option string) (d : string) : string :=
  match o with
  | Some s => if String.eqb s "" then d else s
  | None => d
  end.

(** ** Datetimes

    A [datetime] is its wall-clock reading in microseconds counted from
    1970-01-01T00:00 together with its UTC offset in microseconds, [None]
    for a naive datetime.  Aware datetimes compare by their instant; mixing
    a naive and an aware one in [<] raises [TypeError]. *)

Record datetime := mkdt { dt_us : Z; dt_off : option Z }.

Definition us_per_sec : Z := 1000000.
Definition us_per_day : Z := 86400 * us_per_sec.

Definition instant (d : datetime) : Z :=
  dt_us d - match dt_off d with Some o => o | None => 0 end.

Definition is_aware (d : datetime) : bool :=
  match dt_off d with Some _ => true | None => false end.

(** [a < b] *)
Definition dt_lt (a b : datetime) : result bool :=
  match dt_off a, dt_off b with
  | Some _, Some _ => Ok (instant a <? instant b)
  | None, None => Ok (dt_us a <? dt_us b)
  | _, _ => Raise TypeError
  end.

(** [datetime(1970, 1, 1, tzinfo=timezone.utc)] *)
Definition epoch : datetime := mkdt 0 (Some 0).

(** Days from 1970-01-01 to a proleptic Gregorian date. *)
Definition days_from_civil (y m d : Z) : Z :=
  let y' := if m <=? 2 then y - 1 else y in
  let era := Z.div y' 400 in
  let yoe := y' - era * 400 in
  let mp := if m >? 2 then m - 3 else m + 9 in
  let doy := (153 * mp + 2) / 5 + d - 1 in
  let doe := yoe * 365 + yoe / 4 - yoe / 100 + doy in
  era * 146097 + doe - 719468.

Definition is_leap (y : Z) : bool :=
  (Z.eqb (y mod 4) 0 && negb (Z.eqb (y mod 100) 0)) || Z.eqb (y mod 400) 0.

Definition days_in_month (y m : Z) : Z :=
  if Z.eqb m 2 then (if is_leap y then 29 else 28)
  else if (Z.eqb m 4 || Z.eqb m 6 || Z.eqb m 9 || Z.eqb m 11) then 30
  else 31.

Definition valid_ymdhms (y mo d h mi s : Z) : bool :=
  (1 <=? y) && (y <=? 9999) && (1 <=? mo) && (mo <=? 12)
  && (1 <=? d) && (d <=? days_in_month y mo)
  && (0 <=? h) && (h <=? 23) && (0 <=? mi) && (mi <=? 59)
  && (0 <=? s) && (s <=? 59).

Definition wall_us (y mo d h mi s : Z) : Z :=
  ((days_from_civil y mo d * 86400) + h * 3600 + mi * 60 + s) * us_per_sec.

(** The first six fields of a [time.struct_time] ([e[k][:6]]). *)
Record struct_time := mkst {
  tm_year : Z; tm_mon : Z; tm_mday : Z; tm_hour : Z; tm_min : Z; tm_sec : Z }.

(** [datetime( *e[k][:6], tzinfo=timezone.utc)]; the constructor raises
    [ValueError] on an out-of-range field. *)
Definition datetime_utc (t : struct_time) : result datetime :=
  let '(mkst y mo d h mi s) := t in
  if valid_ymdhms y mo d h mi s then Ok (mkdt (wall_us y mo d h mi s) (Some 0))
  else Raise ValueError.

(** ** Feed entries (the [feedparser] entry dict, fields as [e.get] sees them) *)

Record link_rec := mklink { l_rel : option string; l_type : option string; l_href : option string }.
Record enclosure := mkenc { en_type : option string; en_href : option string; en_url : option string }.

Record entry := mkentry {
  e_title : option string;
  e_link : option string;
  e_links : list link_rec;
  e_content : list (option string);  (** the [value] of each content record *)
  e_summary : option string;
  e_description : option string;
  e_enclosures : list enclosure;
  e_id : option string;
  e_guid : option string;
  e_published : option string;
  e_updated : option string;
  e_created : option string;
  e_published_parsed : option struct_time;
  e_updated_parsed : option struct_time;
  e_created_parsed : option struct_time }.

Definition text_date_fields (e : entry) : list (option string) :=
  [e_published e; e_updated e; e_created e].

Definition parsed_date_fields (e : entry) : list (option struct_time) :=
  [e_published_parsed e; e_updated_parsed e; e_created_parsed e].

Section PickDate.
(** [dateutil.parser.parse]: [None] when it raises. *)
Variable dateparse : string -> option datetime.

Fixpoint pick_text (fs : list (option string)) : option datetime :=
  match fs with
  | [] => None
  | f :: fs' =>
      if truthy f then
        match f with
        | Some s => match dateparse s with
                    | Some d => Some d
                    | None => pick_text fs'   (* except Exception: pass *)
                    end
        | None => pick_text fs'
        end
      else pick_text fs'
  end.

Fixpoint pick_parsed (fs : list (option struct_time)) : result (option datetime) :=
  match fs with
  | [] => Ok None
  | Some t :: _ => d <-? datetime_utc t ;; Ok (Some d)
  | None :: fs' => pick_parsed fs'
  end.

Definition pick_date (e : entry) : result (option datetime) :=
  match pick_text (text_date_fields e) with
  | Some d => Ok (Some d)
  | None => pick_parsed (parsed_date_fields e)
  end.

(** [pick_date(e) or datetime(1970, 1, 1, tzinfo=timezone.utc)] *)
Definition entry_date (e : entry) : result datetime :=
  o <-? pick_date e ;;
  Ok (match o with Some d => d | None => epoch end).

End PickDate.

(** ** URL helpers *)

(** [normalize_protocol]: [//host/...] becomes [https://host/...]. *)
Definition normalize_protocol (url : string) : string :=
  if negb (String.eqb url "") && startswith url "//" then "https:" ++ url else url.

(** [normalize_url(url) = normalize_protocol(url) if url else url] *)
Definition normalize_url (url : string) : string :=
  if String.eqb url "" then url else normalize_protocol url.

(** [normalize_url] applied to a value that may be [None]. *)
Definition normalize_url_opt (o : option string) : option string :=
  match o with Some u => Some (normalize_url u) | None => None end.

(** ** Regular-expression helpers *)

Fixpoint sdrop (n : nat) (s : string) : string :=
  match n, s with
  | O, _ => s
  | S n', String _ r => sdrop n' r
  | S _, EmptyString => EmptyString
  end.

(** Split at the first ['>']: the text before it and the text after it. *)
Fixpoint split_gt (s : string) : option (string * string) :=
  match s with
  | EmptyString => None
  | String c r =>
      if Ascii.eqb c ">" then Some (EmptyString, r)
      else match split_gt r with
           | Some (b, a) => Some (String c b, a)
           | None => None
           end
  end.

(** [re.sub(r"<img[^>]*>", "", s, flags=re.IGNORECASE)]: at a ['<']
    followed by [img] in any case, [[^>]*] runs to the first ['>']. *)
Fixpoint remove_img_fuel (fuel : nat) (s : string) : string :=
  match fuel with
  | O => s
  | S f =>
      match s with
      | EmptyString => EmptyString
      | String c r =>
          if Ascii.eqb c "<" && startswith (lower r) "img" then
            match split_gt (sdrop 3 r) with
            | Some (_, after) => remove_img_fuel f after
            | None => String c (remove_img_fuel f r)
            end
          else String c (remove_img_fuel f r)
      end
  end.

Definition remove_img (s : string) : string := remove_img_fuel (S (String.length s)) s.

(** [re.sub("<[^>]+>", " ", s)]: a ['<'], at least one non-['>'], a ['>']. *)
Fixpoint strip_tags_fuel (fuel : nat) (s : string) : string :=
  match fuel with
  | O => s
  | S f =>
      match s with
      | EmptyString => EmptyString
      | String c r =>
          if Ascii.eqb c "<" then
            match split_gt r with
            | Some (String _ _, after) => " " ++ strip_tags_fuel f after
            | _ => String c (strip_tags_fuel f r)
            end
          else String c (strip_tags_fuel f r)
      end
  end.

Definition strip_tags (s : string) : string := strip_tags_fuel (S (String.length s)) s.

(** ** Entry normalizer *)

(** [e["content"][0]["value"]] when [e.get("content") and len(e["content"])
    and e["content"][0].get("value")] holds. *)
Definition content_value (e : entry) : option string :=
  match e_content e with
  | v :: _ => if truthy v then v else None
  | [] => None
  end.

Definition first_html (e : entry) : string :=
  let html :=
    match content_value e with
    | Some v => v
    | None =>
        if truthy (e_summary e) then or_str (e_summary e) ""
        else if truthy (e_description e) then or_str (e_description e) ""
        else ""
    end in
  strip (remove_img html).

(** The [for L in e.get("links", [])] loop of [pick_link]: [inl v] is an
    early [return v], [inr best] the value of [best] after the loop. *)
Fixpoint pick_link_scan (ls : list link_rec) (best : option string)
  : option string + option string :=
  match ls with
  | [] => inr best
  | L :: ls' =>
      let rel := lower (or_str (l_rel L) "") in
      let typ := lower (or_str (l_type L) "") in
      let href := normalize_url_opt (l_href L) in
      if String.eqb rel "alternate" && (py_in "text/html" typ || String.eqb typ "")
      then inl href
      else
        let best' := if negb (truthy best) && String.eqb rel "alternate" then href else best in
        pick_link_scan ls' best'
  end.

Definition pick_link (e : entry) : option string :=
  if truthy (e_link e) then normalize_url_opt (e_link e)
  else
    match pick_link_scan (e_links e) (Some "") with
    | inl v => v
    | inr best =>
        if truthy best then best
        else match e_links e with
             | L :: _ => normalize_url_opt (l_href L)
             | [] => Some ""
             end
    end.

Fixpoint pick_enclosure_scan (ens : list enclosure) : option string :=
  match ens with
  | [] => None
  | en :: ens' =>
      let typ := lower (or_str (en_type en) "") in
      if startswith typ "image/"
      then Some (normalize_url (or_str (en_href en) (or_str (en_url en) "")))
      else pick_enclosure_scan ens'
  end.

Fixpoint pick_enclosure_link_scan (ls : list link_rec) : option string :=
  match ls with
  | [] => None
  | L :: ls' =>
      if String.eqb (lower (or_str (l_rel L) "")) "enclosure"
         && startswith (lower (or_str (l_type L) "")) "image/"
      then Some (normalize_url (or_str (l_href L) ""))
      else pick_enclosure_link_scan ls'
  end.

Definition pick_image_enclosure (e : entry) : option string :=
  match pick_enclosure_scan (e_enclosures e) with
  | Some u => Some u
  | None => pick_enclosure_link_scan (e_links e)
  end.

(** [normalize_guid_value]: strip, drop one leading [urn:uuid:] (any case)
    with the whitespace around it, strip again. *)
Definition normalize_guid_value (val : string) : string :=
  if String.eqb val "" then ""
  else
    let s := strip val in
    let t := lstrip s in
    let s' := if startswith (lower t) "urn:uuid:" then lstrip (sdrop 9 t) else s in
    strip s'.

(** ** [hashlib.sha1(...).hexdigest()] (FIPS 180-4 SHA-1 over the bytes of
    the UTF-8 encoding, which for ASCII text are its characters). *)
Module Sha1.

Definition mask32 : Z := Z.ones 32.
Definition add32 (a b : Z) : Z := (a + b) mod 2 ^ 32.
Definition rotl (x : Z) (n : Z) : Z :=
  Z.land (Z.lor (Z.shiftl x n) (Z.shiftr x (32 - n))) mask32.

Definition bytes_of_string (s : string) : list Z :=
  map (fun c => Z.of_nat (nat_of_ascii c)) (list_ascii_of_string s).

Fixpoint zeros (n : nat) : list Z :=
  match n with O => [] | S n' => 0 :: zeros n' end.

Definition be_bytes64 (v : Z) : list Z :=
  map (fun i => Z.land (Z.shiftr v (8 * (7 - Z.of_nat i))) 255) (seq 0 8).

Definition pad (msg : list Z) : list Z :=
  let len := Z.of_nat (length msg) in
  app msg (app [128] (app (zeros (Z.to_nat ((55 - len) mod 64))) (be_bytes64 (8 * len)))).

Fixpoint words (bs : list Z) : list Z :=
  match bs with
  | b0 :: b1 :: b2 :: b3 :: rest =>
      (b0 * 2 ^ 24 + b1 * 2 ^ 16 + b2 * 2 ^ 8 + b3) :: words rest
  | _ => []
  end.

(** Message schedule: [win] holds the previous sixteen words, oldest first. *)
Fixpoint schedule (n : nat) (win : list Z) : list Z :=
  match n with
  | O => []
  | S n' =>
      let w := rotl (Z.lxor (Z.lxor (nth 13 win 0) (nth 8 win 0))
                            (Z.lxor (nth 2 win 0) (nth 0 win 0))) 1 in
      w :: schedule n' (app (tl win) [w])
  end.

Definition round_fk (i : nat) (b c d : Z) : Z * Z :=
  if (i <? 20)%nat then (Z.lor (Z.land b c) (Z.land (Z.lxor b mask32) d), 1518500249)
  else if (i <? 40)%nat then (Z.lxor (Z.lxor b c) d, 1859775393)
  else if (i <? 60)%nat then (Z.lor (Z.lor (Z.land b c) (Z.land b d)) (Z.land c d), 2400959708)
  else (Z.lxor (Z.lxor b c) d, 3395469782).

Definition state := (Z * Z * Z * Z * Z)%type.

Definition round (st : state) (iw : nat * Z) : state :=
  let '(a, b, c, d, e) := st in
  let '(i, w) := iw in
  let '(f, k) := round_fk i b c d in
  let temp := add32 (add32 (add32 (add32 (rotl a 5) f) e) k) w in
  (temp, a, rotl b 30, c, d).

Definition compress (h : state) (chunk : list Z) : state :=
  let w16 := words chunk in
  let ws := app w16 (schedule 64 w16) in
  let '(a, b, c, d, e) := fold_left round (combine (seq 0 80) ws) h in
  let '(h0, h1, h2, h3, h4) := h in
  (add32 h0 a, add32 h1 b, add32 h2 c, add32 h3 d, add32 h4 e).

Fixpoint chunks (fuel : nat) (bs : list Z) : list (list Z) :=
  match fuel with
  | O => []
  | S f => match bs with [] => [] | _ => firstn 64 bs :: chunks f (skipn 64 bs) end
  end.

Definition h_init : state :=
  (1732584193, 4023233417, 2562383102, 271733878, 3285377520).

Definition hex_digit (n : Z) : ascii :=
  if n <? 10 then ascii_of_nat (48 + Z.to_nat n) else ascii_of_nat (87 + Z.to_nat n).

(** Eight lowercase hex digits of a 32-bit word. *)
Definition hex8 (w : Z) : string :=
  string_of_list_ascii
    (map (fun i => hex_digit (Z.land (Z.shiftr w (4 * (7 - Z.of_nat i))) 15)) (seq 0 8)).

Definition hexdigest (s : string) : string :=
  let p := pad (bytes_of_string s) in
  let '(h0, h1, h2, h3, h4) := fold_left compress (chunks (length p) p) h_init in
  hex8 h0 ++ hex8 h1 ++ hex8 h2 ++ hex8 h3 ++ hex8 h4.

End Sha1.

(** [guid_for]: the first of [id], [guid] that is non-empty after
    [normalize_guid_value], else the SHA-1 of [link || "||" || title]. *)
Fixpoint guid_from_keys (vals : list (option string)) : option string :=
  match vals with
  | [] => None
  | v :: vs =>
      if truthy v then
        let g := normalize_guid_value (or_str v "") in
        if String.eqb g "" then guid_from_keys vs else Some g
      else guid_from_keys vs
  end.

Definition guid_base (e : entry) : string :=
  or_str (e_link e) "" ++ "||" ++ or_str (e_title e) "".

Definition guid_for (e : entry) : string :=
  match guid_from_keys [e_id e; e_guid e] with
  | Some g => g
  | None => Sha1.hexdigest (guid_base e)
  end.

(** ** Matcher *)

(** [hay] before [.lower()]: the title alone in title-only mode, otherwise
    the non-empty title, summary, description and tag-stripped content
    joined by spaces. *)
Definition raw_haystack (e : entry) (title_only : bool) : string :=
  if title_only then or_str (e_title e) ""
  else
    let parts :=
      ((if truthy (e_title e) then [or_str (e_title e) ""] else [])
      ++ (if truthy (e_summary e) then [or_str (e_summary e) ""] else [])
      ++ (if truthy (e_description e) then [or_str (e_description e) ""] else [])
      ++ (match content_value e with Some v => [strip_tags v] | None => [] end))%list in
    String.concat " " parts.

(** [any(t.lower() in hay for t in terms)] *)
Definition matches (e : entry) (terms : list string) (title_only : bool) : bool :=
  let hay := lower (raw_haystack e title_only) in
  existsb (fun t => py_in (lower t) hay) terms.

(** ** Output items and sources *)

Record item := mkitem {
  it_guid : string;
  it_title : string;
  it_link : string;
  it_html : string;
  it_pubDate : datetime;
  it_category : string;
  it_image : option string }.

(** The dict appended to [collected] in [main]. *)
Definition build_item (label : string) (take_img : bool) (e : entry)
    (dt : datetime) (g : string) : item :=
  {| it_guid := g;
     it_title := or_str (e_title e) "";
     it_link := or_str (pick_link e) "";
     it_html := first_html e;
     it_pubDate := dt;
     it_category := label;
     it_image := if take_img then pick_image_enclosure e else None |}.

(** One entry of [cfg["sources"]]: [url] and [label] may be missing;
    [match] defaults to [[]], the two flags to [False]. *)
Record source := mksrc {
  s_url : option string;
  s_label : option string;
  s_match : list string;
  s_take_img : bool;
  s_title_only : bool }.

Record config := mkcfg {
  cfg_window_days : Z;
  cfg_max_items : Z;
  cfg_sources : list source }.

(** [d[k]]: raises [KeyError] when the key is missing. *)
Definition get_key (k : string) (o : option string) : result string :=
  match o with Some v => Ok v | None => Raise (KeyError k) end.

(** ** The run monad: state is the list of URLs fetched so far. *)

Definition M (A : Type) := list string -> list string * result A.

Definition mret {A} (a : A) : M A := fun log => (log, Ok a).

Definition mbind {A B} (m : M A) (f : A -> M B) : M B :=
  fun log => match m log with
             | (log', Ok a) => f a log'
             | (log', Raise e) => (log', Raise e)
             end.

Definition mlift {A} (r : result A) : M A := fun log => (log, r).

Notation "x <- m ;; k" := (mbind m (fun x => k))
  (at level 61, m at next level, right associativity).

(** ** Aggregation: [collected.sort(key=pubDate, reverse=True)] then
    [if max_items: collected = collected[:max_items]].

    [list.sort] is stable and keeps equal keys in their original order also
    with [reverse=True]; every collected [pubDate] is aware (it has passed
    the comparison with the aware cutoff), so the key is its instant.  The
    model is a stable insertion sort: an element goes before the first
    element whose key it is at least. *)

Definition key (it : item) : Z := instant (it_pubDate it).

Fixpoint insert_desc (x : item) (l : list item) : list item :=
  match l with
  | [] => [x]
  | y :: l' => if key y <=? key x then x :: y :: l' else y :: insert_desc x l'
  end.

Fixpoint sort_desc (l : list item) : list item :=
  match l with
  | [] => []
  | x :: l' => insert_desc x (sort_desc l')
  end.

(** [l[:n]] for a Python int [n]. *)
Definition py_slice_upto {A} (l : list A) (n : Z) : list A :=
  if 0 <=? n then firstn (Z.to_nat n) l
  else firstn (Z.to_nat (Z.of_nat (length l) + n)) l.

Definition aggregate (collected : list item) (max_items : Z) : list item :=
  let sorted := sort_desc collected in
  if negb (Z.eqb max_items 0) then py_slice_upto sorted max_items else sorted.

(** [datetime.now(timezone.utc) - timedelta(days=window_days)]:
    [timedelta] refuses more than 999999999 days, the result must stay
    within years 1..9999. *)
Definition min_us : Z := wall_us 1 1 1 0 0 0.
Definition max_us : Z := wall_us 9999 12 31 23 59 59 + 999999.

Definition cutoff_of (now_us : Z) (window_days : Z) : result datetime :=
  if 999999999 <? Z.abs window_days then Raise OverflowError
  else
    let c := now_us - window_days * us_per_day in
    if (c <? min_us) || (max_us <? c) then Raise OverflowError
    else Ok (mkdt c (Some 0)).

Section Run.
Variable dateparse : string -> option datetime.
(** [parse_feed(url)]: the entries, or [None] when fetching or parsing
    raised (the [except Exception] branch of [main]). *)
Variable fetch_feed : string -> option (list entry).

Definition parse_feed (url : string) : M (option (list entry)) :=
  fun log => (app log [url], Ok (fetch_feed url)).

Fixpoint mem (g : string) (seen : list string) : bool :=
  match seen with [] => false | h :: t => String.eqb g h || mem g t end.

(** The inner [for e in feed.entries] loop; the state is [(collected, seen)]. *)
Fixpoint loop_entries (label : string) (terms : list string) (take_img title_only : bool)
    (cutoff : datetime) (es : list entry) (st : list item * list string)
    : result (list item * list string) :=
  match es with
  | [] => Ok st
  | e :: es' =>
      if negb (matches e terms title_only) then
        loop_entries label terms take_img title_only cutoff es' st
      else
        dt <-? entry_date dateparse e ;;
        old <-? dt_lt dt cutoff ;;
        if old then loop_entries label terms take_img title_only cutoff es' st
        else
          let g := guid_for e in
          if mem g (snd st) then loop_entries label terms take_img title_only cutoff es' st
          else
            loop_entries label terms take_img title_only cutoff es'
              (app (fst st) [build_item label take_img e dt g], g :: snd st)
  end.

(** The outer [for src in cfg.get("sources", [])] loop. *)
Fixpoint loop_sources (cutoff : datetime) (srcs : list source)
    (st : list item * list string) : M (list item * list string) :=
  match srcs with
  | [] => mret st
  | src :: rest =>
      url <- mlift (get_key "url" (s_url src)) ;;
      label <- mlift (get_key "label" (s_label src)) ;;
      feed <- parse_feed url ;;
      match feed with
      | None => loop_sources cutoff rest st
      | Some es =>
          st' <- mlift (loop_entries label (s_match src) (s_take_img src)
                          (s_title_only src) cutoff es st) ;;
          loop_sources cutoff rest st'
      end
  end.

(** [main] up to the RSS serialisation: the items written to the feed. *)
Definition main_items (cfg : config) (now_us : Z) : M (list item) :=
  cutoff <- mlift (cutoff_of now_us (cfg_window_days cfg)) ;;
  st <- loop_sources cutoff (cfg_sources cfg) ([], []) ;;
  mret (aggregate (fst st) (cfg_max_items cfg)).

(** ** The run without deduplication

    The entries that pass the matcher and the window, in processing order,
    each with its source's label and image flag and its timestamp.  Used to
    state what deduplication keeps. *)

Record passed := mkpassed {
  p_label : string; p_take_img : bool; p_entry : entry; p_dt : datetime }.

Definition pkey (p : passed) : string := guid_for (p_entry p).

Definition pbuild (p : passed) : item :=
  build_item (p_label p) (p_take_img p) (p_entry p) (p_dt p) (pkey p).

Fixpoint pass_entries (label : string) (terms : list string) (take_img title_only : bool)
    (cutoff : datetime) (es : list entry) : result (list passed) :=
  match es with
  | [] => Ok []
  | e :: es' =>
      if negb (matches e terms title_only) then
        pass_entries label terms take_img title_only cutoff es'
      else
        dt <-? entry_date dateparse e ;;
        old <-? dt_lt dt cutoff ;;
        if old then pass_entries label terms take_img title_only cutoff es'
        else
          rest <-? pass_entries label terms take_img title_only cutoff es' ;;
          Ok (mkpassed label take_img e dt :: rest)
  end.

Fixpoint pass_sources (cutoff : datetime) (srcs : list source) : M (list passed) :=
  match srcs with
  | [] => mret []
  | src :: rest =>
      url <- mlift (get_key "url" (s_url src)) ;;
      label <- mlift (get_key "label" (s_label src)) ;;
      feed <- parse_feed url ;;
      match feed with
      | None => pass_sources cutoff rest
      | Some es =>
          P <- mlift (pass_entries label (s_match src) (s_take_img src)
                        (s_title_only src) cutoff es) ;;
          Ps <- pass_sources cutoff rest ;;
          mret (app P Ps)
      end
  end.

End Run.

(** First occurrence of each key wins, given the keys already [seen]. *)
Fixpoint dedup_by (seen : list string) (l : list passed) : list passed :=
  match l with
  | [] => []
  | p :: l' =>
      if mem (pkey p) seen then dedup_by seen l'
      else p :: dedup_by (pkey p :: seen) l'
  end.

(** ** [rfc822]

    [dt.astimezone(timezone.utc).strftime("%a, %d %b %Y %H:%M:%S %z")], a
    naive [dt] being taken as UTC first.  The UTC reading is split into days
    and time of day; the calendar date of a day number is the inverse of
    [days_from_civil] (computed within a 400-year era of 146097 days).
    [astimezone] raises [OverflowError] when the UTC date falls outside
    years 1..9999.  [%a] and [%b] are the C-locale names, [%Y] is the year
    in decimal (unpadded below 1000, as glibc prints it), [%z] of UTC is
    [+0000]. *)

(** Year of era, month and day of a day of the era (0 is 1 March of a year
    divisible by 400). *)
Definition civil_of_doe (doe : Z) : Z * Z * Z :=
  let yoe := (doe - doe / 1460 + doe / 36524 - doe / 146096) / 365 in
  let doy := doe - (365 * yoe + yoe / 4 - yoe / 100) in
  let mp := (5 * doy + 2) / 153 in
  let d := doy - (153 * mp + 2) / 5 + 1 in
  let m := if mp <? 10 then mp + 3 else mp - 9 in
  (yoe, m, d).

(** The proleptic Gregorian date of a day counted from 1970-01-01. *)
Definition civil_from_days (z : Z) : Z * Z * Z :=
  let z' := z + 719468 in
  let era := z' / 146097 in
  let '(yoe, m, d) := civil_of_doe (z' - era * 146097) in
  ((if m <=? 2 then 1 else 0) + yoe + era * 400, m, d).

Definition digit_char (n : Z) : ascii := ascii_of_nat (48 + Z.to_nat n).

(** Two zero-padded digits ([%d], [%H], [%M], [%S]). *)
Definition pad2 (n : Z) : string :=
  String (digit_char (n / 10)) (String (digit_char (n mod 10)) "").

Fixpoint dec_fuel (fuel : nat) (n : Z) (acc : string) : string :=
  match fuel with
  | O => acc
  | S f =>
      let acc' := String (digit_char (n mod 10)) acc in
      if n <? 10 then acc' else dec_fuel f (n / 10) acc'
  end.

(** [%Y] for a year in 1..9999. *)
Definition dec (n : Z) : string := dec_fuel 5 n "".

Definition day_abbr (wd : Z) : string :=
  nth (Z.to_nat wd) ["Sun"; "Mon"; "Tue"; "Wed"; "Thu"; "Fri"; "Sat"] "".

Definition month_abbr (m : Z) : string :=
  nth (Z.to_nat (m - 1))
    ["Jan"; "Feb"; "Mar"; "Apr"; "May"; "Jun"; "Jul"; "Aug"; "Sep"; "Oct"; "Nov"; "Dec"] "".

Definition rfc822 (dt : datetime) : result string :=
  let dt := match dt_off dt with
            | None => mkdt (dt_us dt) (Some 0)    (* dt.replace(tzinfo=timezone.utc) *)
            | Some _ => dt
            end in
  let u := instant dt in
  let days := u / us_per_day in
  let sod := (u mod us_per_day) / us_per_sec in
  let '(y, m, d) := civil_from_days days in
  if (y <? 1) || (9999 <? y) then Raise OverflowError
  else Ok (day_abbr ((days + 4) mod 7) ++ ", " ++ pad2 d ++ " " ++ month_abbr m ++ " "
           ++ dec y ++ " " ++ pad2 (sod / 3600) ++ ":" ++ pad2 ((sod mod 3600) / 60) ++ ":"
           ++ pad2 (sod mod 60) ++ " +0000").

(** ** Configuration: [load_config] and the [cfg.get] defaults of [main] *)

(** The [channel] mapping; [None] is a missing key. *)
Record channel_cfg := mkch {
  ch_title : option string;
  ch_link : option string;
  ch_description : option string;
  ch_language : option string;
  ch_self_url : option string }.

(** [yaml.safe_load("feeds.yaml")] restricted to the keys [main] reads;
    [window_days] and [max_items] are YAML integers, which [int()] keeps. *)
Record raw_config := mkraw {
  rc_window_days : option Z;
  rc_max_items : option Z;
  rc_channel : option channel_cfg;
  rc_sources : option (list source) }.

Definition get_default {A} (o : option A) (d : A) : A :=
  match o with Some v => v | None => d end.

(** [int(cfg.get("window_days", 7))], [int(cfg.get("max_items", 400))],
    [cfg.get("sources", [])]. *)
Definition read_config (rc : raw_config) : config :=
  mkcfg (get_default (rc_window_days rc) 7) (get_default (rc_max_items rc) 400)
        (get_default (rc_sources rc) []).

(** [cfg.get("channel", {})] *)
Definition read_channel (rc : raw_config) : channel_cfg :=
  get_default (rc_channel rc) (mkch None None None None None).

(** ** The RSS document (lxml element tree)

    An element has its tag, its attributes in order, its text (plain or a
    CDATA section) and its children in order.  lxml checks every text and
    attribute value ([_utf8]): a control character other than tab, newline
    and carriage return raises [ValueError]; [etree.CDATA] also raises
    [ValueError] on text containing [']]>']. *)

Inductive xtext := XNone | XText (s : string) | XCData (s : string).

#[warnings="-register-all"]
Inductive xnode := XElem (tag : string) (attrs : list (string * string)) (text : xtext)
                         (kids : list xnode).

Definition xml_char (c : ascii) : bool :=
  let n := nat_of_ascii c in (n =? 9)%nat || (n =? 10)%nat || (n =? 13)%nat || (32 <=? n)%nat.

Definition utf8_check (s : string) : result string :=
  if forallb xml_char (list_ascii_of_string s) then Ok s else Raise ValueError.

(** [el.text = s] *)
Definition set_text (s : string) : result xtext :=
  v <-? utf8_check s ;; Ok (XText v).

(** [etree.CDATA(s)] *)
Definition cdata (s : string) : result xtext :=
  v <-? utf8_check s ;;
  if py_in "]]>" v then Raise ValueError else Ok (XCData v).

Definition leaf (tag : string) (t : xtext) : xnode := XElem tag [] t [].

(** The [<item>] built for one collected item in [main]. *)
Definition item_node (it : item) : result xnode :=
  g <-? set_text (it_guid it) ;;
  t <-? set_text (it_title it) ;;
  l <-? (if String.eqb (it_link it) "" then Ok []
         else x <-? set_text (it_link it) ;; Ok [leaf "link" x]) ;;
  h <-? cdata (it_html it) ;;
  ds <-? rfc822 (it_pubDate it) ;;
  p <-? set_text ds ;;
  c <-? set_text (it_category it) ;;
  en <-? (if truthy (it_image it) then
            u <-? utf8_check (or_str (it_image it) "") ;;
            Ok [XElem "enclosure" [("url", u); ("type", "image/jpeg")] XNone []]
          else Ok []) ;;
  Ok (XElem "item" [] XNone
        (XElem "guid" [("isPermaLink", "false")] g [] :: leaf "title" t
         :: app l (app [leaf "description" h; leaf "pubDate" p; leaf "category" c] en))).

Fixpoint item_nodes (l : list item) : result (list xnode) :=
  match l with
  | [] => Ok []
  | it :: r => n <-? item_node it ;; ns <-? item_nodes r ;; Ok (n :: ns)
  end.

(** The [rss] element of [main]; [build_now] is the second
    [datetime.now(timezone.utc)] (for [lastBuildDate]). *)
Definition build_rss (ch : channel_cfg) (build_now : Z) (collected : list item) : result xnode :=
  title <-? set_text (get_default (ch_title ch) "Agregat podcastów (7 dni)") ;;
  link <-? set_text (get_default (ch_link ch) "https://example.com") ;;
  descr <-? set_text (get_default (ch_description ch)
                        "Zbiorczy RSS z filtracją po nazwach podcastów.") ;;
  lang <-? set_text (get_default (ch_language ch) "pl") ;;
  lb <-? rfc822 (mkdt build_now (Some 0)) ;;
  lbt <-? set_text lb ;;
  self <-? (if truthy (ch_self_url ch) then
              h <-? utf8_check (or_str (ch_self_url ch) "") ;;
              Ok [XElem "{http://www.w3.org/2005/Atom}link"
                    [("rel", "self"); ("type", "application/rss+xml"); ("href", h)] XNone []]
            else Ok []) ;;
  items <-? item_nodes collected ;;
  Ok (XElem "rss" [("xmlns:atom", "http://www.w3.org/2005/Atom");
                   ("xmlns:content", "http://purl.org/rss/1.0/modules/content/");
                   ("version", "2.0")] XNone
        [XElem "channel" [] XNone
           (app [leaf "title" title; leaf "link" link; leaf "description" descr;
                 leaf "language" lang; leaf "lastBuildDate" lbt] (app self items))]).

(** ** Writing the file: the XML declaration fix and the self-check *)

Definition dq : string := String (ascii_of_nat 34) "".
Definition nl : string := String (ascii_of_nat 10) "".

(** [s.replace(old, new, 1)]: the leftmost occurrence only. *)
Fixpoint replace_first (s old new : string) : string :=
  if startswith s old then new ++ sdrop (String.length old) s
  else match s with
       | EmptyString => EmptyString
       | String c r => String c (replace_first r old new)
       end.

Definition fix_prolog (xml_text : string) : string :=
  if startswith xml_text "<?xml" then
    let t := replace_first xml_text "version='1.0'" ("version=" ++ dq ++ "1.0" ++ dq) in
    replace_first t "encoding='UTF-8'" ("encoding=" ++ dq ++ "UTF-8" ++ dq)
  else xml_text.

(** The declaration lxml writes for [xml_declaration=True, encoding="UTF-8"]. *)
Definition lxml_declaration : string := "<?xml version='1.0' encoding='UTF-8'?>".

Definition expected_prolog : string :=
  "<?xml version=" ++ dq ++ "1.0" ++ dq ++ " encoding=" ++ dq ++ "UTF-8" ++ dq ++ "?>".

(** [f.readline()] in universal-newline mode, without the line end. *)
Fixpoint first_line (s : string) : string :=
  match s with
  | EmptyString => EmptyString
  | String c r =>
      if (nat_of_ascii c =? 10)%nat || (nat_of_ascii c =? 13)%nat then EmptyString
      else String c (first_line r)
  end.

(** [True] when the self-check prints its warning. *)
Definition prolog_warning (written : string) : bool :=
  negb (startswith (strip (first_line written)) expected_prolog).

(** ** Concrete inputs

    [iso_parse] is [dateutil.parser.parse] on the ISO 8601 fragment
    [YYYY-MM-DDTHH:MM:SS] with no suffix (a naive result), [Z] ([tzutc])
    or [+HH:MM] / [-HH:MM] ([tzoffset]); anything else is treated as
    raising.  [sample_feed] stands for the network. *)

Definition obind {A B} (m : option A) (f : A -> option B) : option B :=
  match m with Some a => f a | None => None end.
Notation "x <-o m ;; k" := (obind m (fun x => k))
  (at level 61, m at next level, right associativity).

Definition digit (c : ascii) : option Z :=
  let n := nat_of_ascii c in
  if (48 <=? n)%nat && (n <=? 57)%nat then Some (Z.of_nat n - 48) else None.

Fixpoint digits (n : nat) (s : string) : option (Z * string) :=
  match n with
  | O => Some (0, s)
  | S n' =>
      match s with
      | String c r =>
          d <-o digit c ;;
          vr <-o digits n' r ;;
          Some (d * 10 ^ Z.of_nat n' + fst vr, snd vr)
      | EmptyString => None
      end
  end.

Definition expect (c : ascii) (s : string) : option string :=
  match s with
  | String d r => if Ascii.eqb c d then Some r else None
  | EmptyString => None
  end.

Definition tz_suffix (s : string) : option (option Z) :=
  match s with
  | EmptyString => Some None
  | String sign r =>
      if Ascii.eqb sign "Z" then (if String.eqb r "" then Some (Some 0) else None)
      else if Ascii.eqb sign "+" || Ascii.eqb sign "-" then
        h <-o digits 2 r ;;
        r1 <-o expect ":" (snd h) ;;
        m <-o digits 2 r1 ;;
        if String.eqb (snd m) "" && (fst h <=? 23) && (fst m <=? 59) then
          let o := (fst h * 3600 + fst m * 60) * us_per_sec in
          Some (Some (if Ascii.eqb sign "+" then o else - o))
        else None
      else None
  end.

Definition iso_parse (s : string) : option datetime :=
  y <-o digits 4 s ;;      s1 <-o expect "-" (snd y) ;;
  mo <-o digits 2 s1 ;;    s2 <-o expect "-" (snd mo) ;;
  d <-o digits 2 s2 ;;     s3 <-o expect "T" (snd d) ;;
  h <-o digits 2 s3 ;;     s4 <-o expect ":" (snd h) ;;
  mi <-o digits 2 s4 ;;    s5 <-o expect ":" (snd mi) ;;
  se <-o digits 2 s5 ;;
  off <-o tz_suffix (snd se) ;;
  if valid_ymdhms (fst y) (fst mo) (fst d) (fst h) (fst mi) (fst se)
  then Some (mkdt (wall_us (fst y) (fst mo) (fst d) (fst h) (fst mi) (fst se)) off)
  else None.

Definition empty_entry : entry :=
  mkentry None None [] [] None None [] None None None None None None None None.

(** An entry with a title, an id and a [published] text date. *)
Definition sample_entry (title id published : string) : entry :=
  {| e_title := Some title; e_link := None; e_links := []; e_content := [];
     e_summary := None; e_description := None; e_enclosures := [];
     e_id := Some id; e_guid := None;
     e_published := Some published; e_updated := None; e_created := None;
     e_published_parsed := None; e_updated_parsed := None; e_created_parsed := None |}.

Definition sample_feed (url : string) : option (list entry) :=
  if String.eqb url "https://a.example/feed" then
    Some [sample_entry "Culture Today" "urn:uuid:1234-5678" "2026-10-18T10:00:00+02:00";
          sample_entry "Culture Weekly" "w-1" "2026-10-17T08:00:00Z"]
  else if String.eqb url "https://b.example/feed" then
    Some [{| e_title := Some "Okladka"; e_link := Some "//b.example/p/1"; e_links := [];
             e_content := []; e_summary := None; e_description := None;
             e_enclosures := [mkenc (Some "image/jpeg") (Some "//cdn.example.com/img.jpg") None];
             e_id := None; e_guid := None;
             e_published := Some "2026-10-16T09:30:00Z"; e_updated := None; e_created := None;
             e_published_parsed := None; e_updated_parsed := None; e_created_parsed := None |}]
  else None.

Definition sample_now : Z := wall_us 2026 10 18 12 0 0.

Definition culture_src : source :=
  mksrc (Some "https://a.example/feed") (Some "Kultura") ["culture"] false true.

(** A source matching everything (its only term is [""]) and taking images. *)
Definition image_src : source :=
  mksrc (Some "https://b.example/feed") (Some "Obrazy") [""] true false.

(** A source whose [url] key is missing. *)
Definition no_url_src : source := mksrc None (Some "Bez adresu") ["culture"] false false.

Definition sample_cfg (max_items : Z) (srcs : list source) : config :=
  mkcfg 7 max_items srcs.

(** ** Auxiliary definitions for the proofs *)

(** What an entry that survives the matcher and the window satisfies. *)
Definition survives (dateparse : string -> option datetime) (c : datetime) (src : source)
    (es : list entry) (p : passed) : Prop :=
  s_label src = Some (p_label p) /\ p_take_img p = s_take_img src
  /\ In (p_entry p) es
  /\ matches (p_entry p) (s_match src) (s_title_only src) = true
  /\ entry_date dateparse (p_entry p) = Ok (p_dt p)
  /\ dt_lt (p_dt p) c = Ok false.

(** What every element of the passing stream satisfies. *)
Definition from_run (dateparse : string -> option datetime)
    (fetch_feed : string -> option (list entry)) (c : datetime) (srcs : list source) (p : passed) : Prop :=
  exists src url es, In src srcs /\ s_url src = Some url /\ fetch_feed url = Some es
                     /\ survives dateparse c src es p.

(** [sort_desc] orders by this relation. *)
Definition desc (a b : item) : Prop := key b <= key a.

Definition same_key (k : Z) (it : item) : bool := Z.eqb (key it) k.

(** [lstrip] on the character list. *)
Fixpoint lstrip_l (l : list ascii) : list ascii :=
  match l with
  | c :: r => if is_space c then lstrip_l r else l
  | [] => []
  end.

Definition hex_chars : list ascii := list_ascii_of_string "0123456789abcdef".





(** [rel == "alternate"] in the loop of [pick_link]. *)
Definition link_alternate (L : link_rec) : bool :=
  String.eqb (lower (or_str (l_rel L) "")) "alternate".

(** [rel == "alternate" and ("text/html" in typ or not typ)]. *)
Definition link_preferred (L : link_rec) : bool :=
  link_alternate L
  && (py_in "text/html" (lower (or_str (l_type L) "")) || String.eqb (lower (or_str (l_type L) "")) "").

(** A link value that is not protocol-relative. *)
Definition no_pr (o : option string) : Prop := forall u, o = Some u -> startswith u "//" = false.

(** [rstrip] on the character list. *)
Definition rstrip_l (l : list ascii) : list ascii := rev (lstrip_l (rev l)).

Definition xtag (n : xnode) : string := match n with XElem t _ _ _ => t end.

Definition xkids (n : xnode) : list xnode := match n with XElem _ _ _ k => k end.

(** The [<item>] elements under the first child of the document root. *)
Definition channel_items (doc : xnode) : list xnode :=
  match xkids doc with
  | ch :: _ => filter (fun n => String.eqb (xtag n) "item") (xkids ch)
  | [] => []
  end.

(** The text of the first child of an [<item>], where [<guid>] goes. *)
Definition item_guid_text (n : xnode) : option string :=
  match xkids n with
  | XElem _ _ (XText g) _ :: _ => Some g
  | _ => None
  end.

(** What lxml accepts in the values of an item: XML characters in the
    texts of [guid], [title], [link], [description] and [category] and in
    the [url] attribute of [enclosure], and no [ ]]> ] inside the CDATA of
    [description].  An empty [link] or image is not written and passes. *)
Definition item_text_ok (it : item) : bool :=
  forallb xml_char (list_ascii_of_string (it_guid it))
  && forallb xml_char (list_ascii_of_string (it_title it))
  && forallb xml_char (list_ascii_of_string (it_link it))
  && forallb xml_char (list_ascii_of_string (it_html it))
  && negb (py_in "]]>" (it_html it))
  && forallb xml_char (list_ascii_of_string (it_category it))
  && forallb xml_char (list_ascii_of_string (or_str (it_image it) "")).

(** A source whose feed cannot be fetched ([sample_feed] has no entry for it). *)
Definition down_src : source :=
  mksrc (Some "https://c.example/feed") (Some "Cisza") [""] false false.

(** A configuration file that sets only [sources]. *)
Definition sources_only_raw (srcs : list source) : raw_config :=
  mkraw None None None (Some srcs).

(** An item whose HTML description holds the CDATA terminator. *)
Definition cdata_item : item :=
  {| it_guid := "g-1"; it_title := "Kultura"; it_link := "";
     it_html := "<p>a]]>b</p>"; it_pubDate := mkdt sample_now (Some 0);
     it_category := "Kultura"; it_image := None |}.

(** An Atom-style entry without [link]: an RSS [alternate] link first, then
    an HTML [alternate] link. *)
Definition atom_entry : entry :=
  mkentry (Some "Culture") None
    [mklink (Some "alternate") (Some "application/rss+xml") (Some "//x.example/feed");
     mklink (Some "ALTERNATE") (Some "text/html; charset=utf-8") (Some "//x.example/page")]
    [] None None [] None None None None None None None None.

(** An entry whose [published] text does not parse and whose [updated]
    text does; it also has a decomposed [published_parsed]. *)
Definition fallthrough_entry : entry :=
  mkentry (Some "Culture") None [] [] None None [] None None
    (Some "yesterday") (Some "2026-10-17T08:00:00Z") None
    (Some (mkst 2020 1 1 0 0 0)) None None.

(** An entry with no usable text date: [published] does not parse,
    [created] is empty; only [updated_parsed] and [created_parsed] are set. *)
Definition parsed_entry : entry :=
  mkentry (Some "Culture") None [] [] None None [] None None
    (Some "yesterday") None (Some "")
    None (Some (mkst 2026 10 16 9 30 0)) (Some (mkst 2020 1 1 0 0 0)).

(** * Properties *)

Section LoopFacts.
Variable dateparse : string -> option datetime.
Variable fetch_feed : string -> option (list entry).

Lemma dedup_by_app : forall P1 P2 seen,
  dedup_by seen (app P1 P2)
  = app (dedup_by seen P1) (dedup_by (app (rev (map pkey (dedup_by seen P1))) seen) P2).
Proof.
  induction P1 as [|p P1 IH]; intros P2 seen; simpl; [reflexivity|].
  destruct (mem (pkey p) seen) eqn:Hm; [apply IH|].
  simpl. rewrite IH. rewrite <- app_assoc. reflexivity.
Qed.

Lemma loop_entries_pass : forall label terms ti to c es coll seen,
  loop_entries dateparse label terms ti to c es (coll, seen)
  = match pass_entries dateparse label terms ti to c es with
    | Ok P => Ok (app coll (map pbuild (dedup_by seen P)),
                  app (rev (map pkey (dedup_by seen P))) seen)
    | Raise x => Raise x
    end.
Proof.
  induction es as [|e es IH]; intros coll seen; simpl.
  - rewrite app_nil_r. reflexivity.
  - destruct (negb (matches e terms to)); [apply IH|].
    destruct (entry_date dateparse e) as [dt|x]; simpl; [|reflexivity].
    destruct (dt_lt dt c) as [old|x]; simpl; [|reflexivity].
    destruct old; [apply IH|].
    destruct (pass_entries dateparse label terms ti to c es) as [P|x] eqn:HP;
      simpl; destruct (mem (guid_for e) seen) eqn:Hm.
    + rewrite IH. change (pkey (mkpassed label ti e dt)) with (guid_for e).
      rewrite Hm. reflexivity.
    + rewrite IH. change (pkey (mkpassed label ti e dt)) with (guid_for e).
      rewrite Hm. simpl. rewrite <- !app_assoc. reflexivity.
    + rewrite IH. reflexivity.
    + rewrite IH. reflexivity.
Qed.

Lemma loop_sources_pass : forall c srcs coll seen log,
  loop_sources dateparse fetch_feed c srcs (coll, seen) log
  = match pass_sources dateparse fetch_feed c srcs log with
    | (log', Ok P) => (log', Ok (app coll (map pbuild (dedup_by seen P)),
                                 app (rev (map pkey (dedup_by seen P))) seen))
    | (log', Raise x) => (log', Raise x)
    end.
Proof.
  induction srcs as [|src srcs IH]; intros coll seen log; simpl.
  - unfold mret. rewrite app_nil_r. reflexivity.
  - unfold mbind, mlift, parse_feed, mret.
    destruct (s_url src) as [url|]; simpl; [|reflexivity].
    destruct (s_label src) as [label|]; simpl; [|reflexivity].
    destruct (fetch_feed url) as [es|]; [|apply IH].
    rewrite loop_entries_pass.
    destruct (pass_entries dateparse label (s_match src) (s_take_img src)
                (s_title_only src) c es) as [P|x]; [|reflexivity].
    rewrite IH.
    destruct (pass_sources dateparse fetch_feed c srcs (app log [url])) as [log' [Ps|x]];
      [|reflexivity].
    rewrite dedup_by_app. f_equal. f_equal. f_equal; [rewrite map_app, app_assoc; reflexivity|].
    rewrite map_app, rev_app_distr, app_assoc. reflexivity.
Qed.

Lemma main_items_pass : forall cfg now_us log,
  main_items dateparse fetch_feed cfg now_us log
  = match cutoff_of now_us (cfg_window_days cfg) with
    | Raise x => (log, Raise x)
    | Ok c =>
        match pass_sources dateparse fetch_feed c (cfg_sources cfg) log with
        | (log', Ok P) => (log', Ok (aggregate (map pbuild (dedup_by [] P)) (cfg_max_items cfg)))
        | (log', Raise x) => (log', Raise x)
        end
    end.
Proof.
  intros cfg now_us log. unfold main_items, mbind at 1, mlift at 1.
  destruct (cutoff_of now_us (cfg_window_days cfg)) as [c|x]; [|reflexivity].
  unfold mbind. rewrite loop_sources_pass.
  destruct (pass_sources dateparse fetch_feed c (cfg_sources cfg) log) as [log' [P|x]];
    reflexivity.
Qed.


Lemma pass_entries_sound : forall src label c es P,
  s_label src = Some label ->
  pass_entries dateparse label (s_match src) (s_take_img src) (s_title_only src) c es = Ok P ->
  Forall (survives dateparse c src es) P.
Proof.
  intros src label c es. induction es as [|e es IH]; intros P Hl H; simpl in H.
  - injection H as <-. constructor.
  - assert (Hw : forall P', Forall (survives dateparse c src es) P' ->
                             Forall (survives dateparse c src (e :: es)) P').
    { intros P' HP'. eapply Forall_impl; [|exact HP'].
      intros p (H1 & H2 & H3 & H4). exact (conj H1 (conj H2 (conj (or_intror H3) H4))). }
    destruct (matches e (s_match src) (s_title_only src)) eqn:Hm; simpl in H;
      [|apply Hw, IH; assumption].
    destruct (entry_date dateparse e) as [dt|x] eqn:Hd; simpl in H; [|discriminate].
    destruct (dt_lt dt c) as [old|x] eqn:Hlt; simpl in H; [|discriminate].
    destruct old; [apply Hw, IH; assumption|].
    destruct (pass_entries dateparse label (s_match src) (s_take_img src)
                (s_title_only src) c es) as [P'|x] eqn:HP'; simpl in H; [|discriminate].
    injection H as <-. constructor.
    + refine (conj Hl (conj eq_refl (conj (or_introl eq_refl) (conj Hm (conj Hd Hlt))))).

    + apply Hw, IH; auto.
Qed.


Lemma pass_sources_sound : forall c srcs log log' P,
  pass_sources dateparse fetch_feed c srcs log = (log', Ok P) ->
  Forall (from_run dateparse fetch_feed c srcs) P.
Proof.
  intros c. induction srcs as [|src srcs IH]; intros log log' P H; simpl in H.
  - unfold mret in H. injection H as _ <-. constructor.
  - assert (Hw : forall P', Forall (from_run dateparse fetch_feed c srcs) P' ->
                             Forall (from_run dateparse fetch_feed c (src :: srcs)) P').
    { intros P' HP'. eapply Forall_impl; [|exact HP'].
      intros p (s & u & es & Hin & R). exists s, u, es. split; [right|]; auto. }
    unfold mbind, mlift, parse_feed, mret in H.
    destruct (s_url src) as [url|] eqn:Hu; simpl in H; [|discriminate].
    destruct (s_label src) as [label|] eqn:Hlab; simpl in H; [|discriminate].
    destruct (fetch_feed url) as [es|] eqn:Hf; [|eapply Hw, IH; exact H].
    destruct (pass_entries dateparse label (s_match src) (s_take_img src)
                (s_title_only src) c es) as [P1|x] eqn:H1; [|discriminate].
    destruct (pass_sources dateparse fetch_feed c srcs (app log [url])) as [l2 [P2|x]] eqn:H2;
      [|discriminate].
    injection H as _ <-. apply Forall_app. split.
    + eapply Forall_impl; [|exact (pass_entries_sound src label c es P1 Hlab H1)].
      intros p Hp. exists src, url, es. exact (conj (or_introl eq_refl) (conj Hu (conj Hf Hp))).
    + apply Hw. eapply IH. exact H2.
Qed.

End LoopFacts.

Lemma mem_In : forall g seen, mem g seen = true <-> In g seen.
Proof.
  intros g seen. induction seen as [|h t IH]; simpl; [split; [discriminate|contradiction]|].
  rewrite orb_true_iff, String.eqb_eq, IH. split; intros [H|H]; auto.
Qed.

Lemma dedup_by_fresh : forall P seen g,
  In g (map pkey (dedup_by seen P)) -> mem g seen = false.
Proof.
  induction P as [|p P IH]; intros seen g H; simpl in H; [contradiction|].
  destruct (mem (pkey p) seen) eqn:Hm; [eapply IH; exact H|].
  destruct H as [<-|H]; [exact Hm|].
  apply IH in H. simpl in H. apply orb_false_iff in H. apply H.
Qed.

Lemma dedup_by_NoDup : forall P seen, NoDup (map pkey (dedup_by seen P)).
Proof.
  induction P as [|p P IH]; intros seen; simpl; [constructor|].
  destruct (mem (pkey p) seen) eqn:Hm; [apply IH|].
  simpl. constructor; [|apply IH].
  intros Hin. apply dedup_by_fresh in Hin. simpl in Hin.
  rewrite String.eqb_refl in Hin. discriminate.
Qed.

Lemma dedup_by_filter : forall P seen g,
  filter (fun q => String.eqb (pkey q) g) (dedup_by seen P)
  = if mem g seen then []
    else match find (fun q => String.eqb (pkey q) g) P with Some q => [q] | None => [] end.
Proof.
  induction P as [|p P IH]; intros seen g; simpl.
  - destruct (mem g seen); reflexivity.
  - destruct (mem (pkey p) seen) eqn:Hm.
    + rewrite IH. destruct (String.eqb (pkey p) g) eqn:He; [|reflexivity].
      apply String.eqb_eq in He. subst g. rewrite Hm. reflexivity.
    + simpl. destruct (String.eqb (pkey p) g) eqn:He.
      * apply String.eqb_eq in He. subst g. rewrite IH, Hm. simpl.
        rewrite String.eqb_refl. reflexivity.
      * rewrite IH. simpl. rewrite String.eqb_sym, He. reflexivity.
Qed.

(** ** The stable descending sort *)


Lemma insert_desc_perm : forall x l, Permutation (insert_desc x l) (x :: l).
Proof.
  intros x l. induction l as [|y l IH]; simpl; [reflexivity|].
  destruct (key y <=? key x); [reflexivity|].
  rewrite IH. apply perm_swap.
Qed.

Lemma sort_desc_perm : forall l, Permutation (sort_desc l) l.
Proof.
  induction l as [|x l IH]; simpl; [reflexivity|].
  rewrite insert_desc_perm. now apply perm_skip.
Qed.

Lemma insert_desc_hd : forall x y l,
  HdRel desc y l -> desc y x -> HdRel desc y (insert_desc x l).
Proof.
  intros x y l Hh Hyx. destruct l as [|z l]; simpl.
  - constructor. exact Hyx.
  - destruct (key z <=? key x); constructor; [exact Hyx|]. now inversion Hh.
Qed.

Lemma insert_desc_sorted : forall x l, Sorted desc l -> Sorted desc (insert_desc x l).
Proof.
  intros x l. induction l as [|y l IH]; intros Hs; simpl.
  - repeat constructor.
  - destruct (key y <=? key x) eqn:Hk.
    + constructor; [exact Hs|]. constructor. unfold desc. lia.
    + apply Sorted_inv in Hs as [Hs Hh]. constructor; [now apply IH|].
      apply insert_desc_hd; [exact Hh|]. unfold desc. lia.
Qed.

Lemma sort_desc_sorted : forall l, Sorted desc (sort_desc l).
Proof.
  induction l as [|x l IH]; simpl; [constructor|]. now apply insert_desc_sorted.
Qed.


Lemma insert_desc_filter : forall k x l,
  filter (same_key k) (insert_desc x l) = filter (same_key k) (x :: l).
Proof.
  intros k x l. induction l as [|y l IH]; simpl; [reflexivity|].
  destruct (key y <=? key x) eqn:Hk; [reflexivity|].
  simpl. rewrite IH. simpl. unfold same_key.
  destruct (key x =? k) eqn:Hx, (key y =? k) eqn:Hy; try reflexivity; lia.
Qed.

Lemma sort_desc_stable : forall k l,
  filter (same_key k) (sort_desc l) = filter (same_key k) l.
Proof.
  intros k. induction l as [|x l IH]; simpl; [reflexivity|].
  rewrite insert_desc_filter. simpl. now rewrite IH.
Qed.

Lemma aggregate_prefix : forall l n, exists m, aggregate l n = firstn m (sort_desc l).
Proof.
  intros l n. unfold aggregate, py_slice_upto.
  destruct (negb (n =? 0)); [|exists (length (sort_desc l)); symmetry; apply firstn_all].
  destruct (0 <=? n); eexists; reflexivity.
Qed.

Lemma aggregate_incl : forall l n x, In x (aggregate l n) -> In x l.
Proof.
  intros l n x H. destruct (aggregate_prefix l n) as [m Hm]. rewrite Hm in H.
  apply Permutation_in with (l := sort_desc l); [apply sort_desc_perm|].
  rewrite <- (firstn_skipn m (sort_desc l)). apply in_or_app. now left.
Qed.

Lemma aggregate_NoDup : forall (f : item -> string) l n,
  NoDup (map f l) -> NoDup (map f (aggregate l n)).
Proof.
  intros f l n H. destruct (aggregate_prefix l n) as [m Hm]. rewrite Hm.
  apply NoDup_app_remove_r with (l' := map f (skipn m (sort_desc l))).
  rewrite <- map_app, firstn_skipn.
  eapply Permutation_NoDup; [|exact H].
  apply Permutation_map. symmetry. apply sort_desc_perm.
Qed.

(** ** Strings *)

Lemma startswith_spec : forall n h, startswith h n = true <-> exists suf, h = n ++ suf.
Proof.
  induction n as [|c n IH]; intros h; simpl.
  - split; [intros _; exists h; reflexivity|intros _; destruct h; reflexivity].
  - destruct h as [|d h]; simpl.
    + split; [discriminate|intros [suf H]; discriminate].
    + rewrite andb_true_iff, IH, Ascii.eqb_eq. split.
      * intros [-> [suf ->]]. exists suf. reflexivity.
      * intros [suf H]. injection H as -> ->. split; [reflexivity|]. exists suf; reflexivity.
Qed.

Lemma py_in_unfold : forall n h,
  py_in n h = startswith h n || match h with EmptyString => false | String _ r => py_in n r end.
Proof. intros n h. destruct h; reflexivity. Qed.

Lemma py_in_spec : forall n h, py_in n h = true <-> exists pre suf, h = pre ++ n ++ suf.
Proof.
  intros n. induction h as [|c h IH]; rewrite py_in_unfold, orb_true_iff, startswith_spec.
  - split.
    + intros [[suf H]|H]; [|discriminate]. exists "", "".
      destruct n; [reflexivity|discriminate].
    + intros [pre [suf H]]. left. exists "".
      destruct pre; [|discriminate]. destruct n; [reflexivity|discriminate].
  - rewrite IH. split.
    + intros [[suf H]|[pre [suf H]]].
      * exists "", suf. exact H.
      * exists (String c pre), suf. simpl. now rewrite H.
    + intros [pre [suf H]]. destruct pre as [|d pre].
      * left. exists suf. exact H.
      * right. injection H as _ H. exists pre, suf. exact H.
Qed.

(** * Claims *)

(** ** Matcher *)

(** C5: [matches] holds exactly when some term, lowercased, is a substring
    of the lowercased haystack; in title-only mode the haystack is the title
    alone; an empty term list never matches. *)
Theorem C5_matches_substring : forall e terms title_only,
  (matches e terms title_only = true <->
     exists t, In t terms /\
       exists pre suf, lower (raw_haystack e title_only) = pre ++ lower t ++ suf)
  /\ raw_haystack e true = or_str (e_title e) ""
  /\ matches e [] title_only = false.
Proof.
  intros e terms title_only. split; [|split; reflexivity].
  unfold matches. rewrite existsb_exists. split.
  - intros [t [Hin H]]. exists t. split; [exact Hin|]. now apply py_in_spec.
  - intros [t [Hin H]]. exists t. split; [exact Hin|]. now apply py_in_spec.
Qed.

(** C10: a source whose terms include the empty string matches every entry,
    in either mode. *)
Theorem C10_empty_term_matches_all : forall e terms title_only,
  In "" terms -> matches e terms title_only = true.
Proof.
  intros e terms title_only Hin. unfold matches. apply existsb_exists.
  exists "". split; [exact Hin|]. simpl. rewrite py_in_unfold.
  destruct (lower (raw_haystack e title_only)); reflexivity.
Qed.

Lemma C10_empty_term_matches_all_witness :
  In "" ["culture"; ""] /\ matches empty_entry ["culture"; ""] true = true.
Proof.
  split; [right; left; reflexivity|].
  apply (C10_empty_term_matches_all empty_entry ["culture"; ""] true).
  right; left; reflexivity.
Defined.

(** ** Canonical identifier *)


Lemma lstrip_of_list : forall l,
  lstrip (string_of_list_ascii l) = string_of_list_ascii (lstrip_l l).
Proof. induction l as [|c l IH]; simpl; [reflexivity|]. destruct (is_space c); auto. Qed.

Lemma lstrip_list : forall s,
  list_ascii_of_string (lstrip s) = lstrip_l (list_ascii_of_string s).
Proof. induction s as [|c s IH]; simpl; [reflexivity|]. destruct (is_space c); auto. Qed.

Lemma lstrip_l_head : forall l,
  lstrip_l l = [] \/ exists c w, lstrip_l l = c :: w /\ is_space c = false.
Proof.
  induction l as [|c l IH]; simpl; [now left|].
  destruct (is_space c) eqn:Hc; [exact IH|]. right. exists c, l. now split.
Qed.

Lemma lstrip_l_snoc : forall l c, is_space c = false ->
  lstrip_l (app l [c]) = app (lstrip_l l) [c].
Proof.
  induction l as [|a l IH]; intros c Hc; simpl; [now rewrite Hc|].
  destruct (is_space a); [now apply IH|reflexivity].
Qed.

Lemma lstrip_idem : forall s, lstrip (lstrip s) = lstrip s.
Proof.
  induction s as [|c s IH]; simpl; [reflexivity|].
  destruct (is_space c) eqn:Hc; [exact IH|]. simpl. now rewrite Hc.
Qed.

(** A stripped string has no leading whitespace. *)
Lemma lstrip_strip : forall s, lstrip (strip s) = strip s.
Proof.
  intros s. unfold strip, rev_string.
  rewrite !lstrip_of_list, !list_ascii_of_string_of_list_ascii, !lstrip_list.
  f_equal.
  destruct (lstrip_l_head (list_ascii_of_string s)) as [H|[c [w [H Hc]]]];
    rewrite H; simpl; [reflexivity|].
  rewrite lstrip_l_snoc by exact Hc. rewrite rev_app_distr. simpl. now rewrite Hc.
Qed.

Lemma strip_lstrip : forall s, strip (lstrip s) = strip s.
Proof. intros s. unfold strip. now rewrite lstrip_idem. Qed.

(** [normalize_guid_value] on a non-empty value: strip, drop a leading
    [urn:uuid:] in any case, strip again. *)
Lemma normalize_guid_value_spec : forall v, v <> "" ->
  normalize_guid_value v
  = strip (if startswith (lower (strip v)) "urn:uuid:" then sdrop 9 (strip v) else strip v).
Proof.
  intros v Hv. unfold normalize_guid_value.
  destruct (String.eqb v "") eqn:He; [apply String.eqb_eq in He; contradiction|].
  rewrite lstrip_strip. destruct (startswith (lower (strip v)) "urn:uuid:");
    [apply strip_lstrip|reflexivity].
Qed.

Lemma length_string_of_list_ascii : forall l,
  String.length (string_of_list_ascii l) = length l.
Proof. induction l; simpl; auto. Qed.

Lemma length_append : forall a b, String.length (a ++ b) = (String.length a + String.length b)%nat.
Proof. induction a; simpl; auto. Qed.

Lemma list_ascii_of_string_append : forall a b,
  list_ascii_of_string (a ++ b) = app (list_ascii_of_string a) (list_ascii_of_string b).
Proof. induction a; simpl; intros; f_equal; auto. Qed.


Lemma hex_digit_ok : forall n, 0 <= n <= 15 -> In (Sha1.hex_digit n) hex_chars.
Proof.
  intros n Hn. rewrite <- (Z2Nat.id n) by lia.
  assert (Hm : (Z.to_nat n < 16)%nat) by lia.
  revert Hm. generalize (Z.to_nat n) as m. intros m Hm.
  do 16 (destruct m as [|m]; [vm_compute; tauto|]). lia.
Qed.

Lemma hex8_ok : forall w,
  String.length (Sha1.hex8 w) = 8%nat /\ Forall (fun c => In c hex_chars) (list_ascii_of_string (Sha1.hex8 w)).
Proof.
  intros w. unfold Sha1.hex8. rewrite length_string_of_list_ascii, length_map, length_seq.
  split; [reflexivity|]. rewrite list_ascii_of_string_of_list_ascii.
  apply Forall_map, Forall_forall. intros i _. apply hex_digit_ok.
  change 15 with (Z.ones 4). rewrite Z.land_ones by lia.
  pose proof (Z.mod_pos_bound (Z.shiftr w (4 * (7 - Z.of_nat i))) (2 ^ 4)) as Hb.
  change (2 ^ 4) with 16 in *. change (Z.ones 4) with 15. lia.
Qed.

(** [hexdigest()] is forty lowercase hex digits. *)
Lemma hexdigest_ok : forall s,
  String.length (Sha1.hexdigest s) = 40%nat
  /\ Forall (fun c => In c hex_chars) (list_ascii_of_string (Sha1.hexdigest s)).
Proof.
  intros s. unfold Sha1.hexdigest.
  destruct (fold_left Sha1.compress _ Sha1.h_init) as [[[[h0 h1] h2] h3] h4].
  destruct (hex8_ok h0) as [L0 F0], (hex8_ok h1) as [L1 F1], (hex8_ok h2) as [L2 F2],
           (hex8_ok h3) as [L3 F3], (hex8_ok h4) as [L4 F4].
  rewrite !length_append, !list_ascii_of_string_append, L0, L1, L2, L3, L4.
  split; [reflexivity|]. repeat (apply Forall_app; split); assumption.
Qed.

Lemma guid_from_keys_nonempty : forall vs g, guid_from_keys vs = Some g -> g <> "".
Proof.
  induction vs as [|v vs IH]; intros g H; simpl in H; [discriminate|].
  destruct (truthy v); [|eapply IH; exact H].
  destruct (String.eqb (normalize_guid_value (or_str v "")) "") eqn:He;
    [eapply IH; exact H|].
  injection H as <-. intros Hg. rewrite Hg in He. discriminate.
Qed.

Lemma guid_key_used : forall v, normalize_guid_value v <> "" ->
  truthy (Some v) = true /\ normalize_guid_value (or_str (Some v) "") = normalize_guid_value v
  /\ String.eqb (normalize_guid_value v) "" = false.
Proof.
  intros v Hn. unfold truthy, or_str.
  destruct (String.eqb v "") eqn:Hv.
  - apply String.eqb_eq in Hv. subst v. contradiction.
  - split; [reflexivity|split; [reflexivity|]]. now apply String.eqb_neq.
Qed.

Lemma guid_key_skipped : forall o,
  (forall w, o = Some w -> normalize_guid_value w = "") ->
  forall vs, guid_from_keys (o :: vs) = guid_from_keys vs.
Proof.
  intros o Ho vs. simpl. destruct o as [w|]; [|reflexivity].
  unfold truthy, or_str. destruct (String.eqb w "") eqn:Hw; [reflexivity|].
  simpl. rewrite (Ho w eq_refl). reflexivity.
Qed.

(** C4: [guid_for] is never empty; a usable [id] wins, then a usable [guid]
    (usable: non-empty after stripping whitespace and one leading
    [urn:uuid:] in any case); otherwise it is the 40-digit hex SHA-1 of
    [link + "||" + title]. *)
Theorem C4_guid_for_spec : forall e,
  guid_for e <> ""
  /\ (forall v, e_id e = Some v -> normalize_guid_value v <> "" ->
        guid_for e = normalize_guid_value v)
  /\ (forall v, (forall w, e_id e = Some w -> normalize_guid_value w = "") ->
        e_guid e = Some v -> normalize_guid_value v <> "" ->
        guid_for e = normalize_guid_value v)
  /\ ((forall w, e_id e = Some w -> normalize_guid_value w = "") ->
      (forall w, e_guid e = Some w -> normalize_guid_value w = "") ->
        guid_for e = Sha1.hexdigest (or_str (e_link e) "" ++ "||" ++ or_str (e_title e) "")
        /\ String.length (guid_for e) = 40%nat
        /\ Forall (fun c => In c hex_chars) (list_ascii_of_string (guid_for e)))
  /\ (forall v, v <> "" ->
        normalize_guid_value v
        = strip (if startswith (lower (strip v)) "urn:uuid:" then sdrop 9 (strip v) else strip v)).
Proof.
  intros e. split; [|split; [|split; [|split]]].
  - unfold guid_for. destruct (guid_from_keys [e_id e; e_guid e]) as [g|] eqn:Hg.
    + eapply guid_from_keys_nonempty; exact Hg.
    + intros H. pose proof (proj1 (hexdigest_ok (guid_base e))) as HL.
      rewrite H in HL. discriminate.
  - intros v Hid Hn. unfold guid_for. rewrite Hid.
    destruct (guid_key_used v Hn) as (T & N & E). cbn [guid_from_keys]. rewrite T, N, E. reflexivity.
  - intros v Hid Hgu Hn. unfold guid_for. rewrite guid_key_skipped by exact Hid.
    rewrite Hgu. destruct (guid_key_used v Hn) as (T & N & E). cbn [guid_from_keys]. rewrite T, N, E.
    reflexivity.
  - intros Hid Hgu. unfold guid_for.
    rewrite guid_key_skipped by exact Hid. rewrite guid_key_skipped by exact Hgu.
    simpl. split; [reflexivity|]. apply hexdigest_ok.
  - apply normalize_guid_value_spec.
Qed.

Lemma C4_guid_for_spec_witness :
  guid_for (sample_entry "Culture Today" "urn:uuid:1234-5678" "2026-10-18T10:00:00+02:00")
  = "1234-5678".
Proof.
  destruct (C4_guid_for_spec
              (sample_entry "Culture Today" "urn:uuid:1234-5678" "2026-10-18T10:00:00+02:00"))
    as (_ & Hid & _).
  rewrite (Hid "urn:uuid:1234-5678" eq_refl); [reflexivity|].
  vm_compute. discriminate.
Defined.

(** The two identifier scenarios of the design: [urn:uuid:1234-5678] gives
    [1234-5678]; no identifier, link [https://x/y] and title [T] give the
    SHA-1 of [https://x/y||T]. *)
Example guid_scenarios :
  normalize_guid_value "urn:uuid:1234-5678" = "1234-5678"
  /\ guid_for {| e_title := Some "T"; e_link := Some "https://x/y"; e_links := [];
                 e_content := []; e_summary := None; e_description := None;
                 e_enclosures := []; e_id := None; e_guid := None;
                 e_published := None; e_updated := None; e_created := None;
                 e_published_parsed := None; e_updated_parsed := None;
                 e_created_parsed := None |}
     = Sha1.hexdigest "https://x/y||T"
  /\ Sha1.hexdigest "https://x/y||T" = "b79f07ecc1a936ff7fdb8fed9ff77190052634f4".
Proof. vm_compute. repeat split. Qed.

(** ** Date selection *)

Lemma pick_text_skip : forall dateparse pre rest,
  Forall (fun f => match f with Some w => w = "" \/ dateparse w = None | None => True end) pre ->
  pick_text dateparse (app pre rest) = pick_text dateparse rest.
Proof.
  intros dateparse pre rest H. induction H as [|f pre Hf _ IH]; simpl; [reflexivity|].
  destruct f as [w|]; [|exact IH]. unfold truthy.
  destruct Hf as [->|Hn]; [exact IH|].
  destruct (negb (String.eqb w "")); [rewrite Hn|]; exact IH.
Qed.

Lemma pick_parsed_skip : forall pre rest,
  Forall (eq None) pre -> pick_parsed (app pre rest) = pick_parsed rest.
Proof.
  intros pre rest H. induction H as [|f pre Hf _ IH]; simpl; [reflexivity|].
  subst f. exact IH.
Qed.

(** C8: [pick_date] returns the first of [published], [updated], [created]
    that is present and parses, whatever the decomposed fields hold; only
    when none does, the first present of [published_parsed],
    [updated_parsed], [created_parsed], read as UTC; otherwise no date. *)
Theorem C8_pick_date_order : forall dateparse e,
  (forall pre s post d,
     text_date_fields e = app pre (Some s :: post) ->
     Forall (fun f => match f with Some w => w = "" \/ dateparse w = None | None => True end) pre ->
     s <> "" -> dateparse s = Some d ->
     pick_date dateparse e = Ok (Some d))
  /\ (Forall (fun f => match f with Some w => w = "" \/ dateparse w = None | None => True end)
             (text_date_fields e) ->
      (forall pre t post,
         parsed_date_fields e = app pre (Some t :: post) -> Forall (eq None) pre ->
         pick_date dateparse e = (d <-? datetime_utc t ;; Ok (Some d)))
      /\ (Forall (eq None) (parsed_date_fields e) -> pick_date dateparse e = Ok None))
  /\ (forall t d, datetime_utc t = Ok d ->
        dt_off d = Some 0
        /\ dt_us d = wall_us (tm_year t) (tm_mon t) (tm_mday t) (tm_hour t) (tm_min t) (tm_sec t)).
Proof.
  intros dateparse e. split; [|split].
  - intros pre s post d Hf Hpre Hs Hd. unfold pick_date. rewrite Hf, pick_text_skip by exact Hpre.
    simpl. unfold truthy. destruct (String.eqb s "") eqn:He.
    + apply String.eqb_eq in He. contradiction.
    + simpl. rewrite Hd. reflexivity.
  - intros Hall. unfold pick_date.
    rewrite <- (app_nil_r (text_date_fields e)), pick_text_skip by exact Hall.
    cbn [pick_text]. split.
    + intros pre t post Hp Hpre. rewrite Hp, pick_parsed_skip by exact Hpre. reflexivity.
    + intros Hn. rewrite <- (app_nil_r (parsed_date_fields e)), pick_parsed_skip by exact Hn.
      reflexivity.
  - intros [y mo d h mi s] dt H. unfold datetime_utc in H.
    destruct (valid_ymdhms y mo d h mi s); [|discriminate].
    injection H as <-. split; reflexivity.
Qed.

Lemma C8_pick_date_order_witness :
  pick_date iso_parse fallthrough_entry
  = Ok (Some (mkdt (wall_us 2026 10 17 8 0 0) (Some 0)))
  /\ pick_date iso_parse parsed_entry
     = (d <-? datetime_utc (mkst 2026 10 16 9 30 0) ;; Ok (Some d)).
Proof.
  destruct (C8_pick_date_order iso_parse fallthrough_entry) as (Htext & _ & _).
  destruct (C8_pick_date_order iso_parse parsed_entry) as (_ & Hparsed & _).
  split.
  - apply (Htext [Some "yesterday"] "2026-10-17T08:00:00Z" [None]).
    + reflexivity.
    + constructor; [right; reflexivity|constructor].
    + discriminate.
    + vm_compute. reflexivity.
  - apply (proj1 (Hparsed ltac:(constructor; [right; reflexivity|];
                                 constructor; [exact I|];
                                 constructor; [left; reflexivity|constructor]))
             [None] (mkst 2026 10 16 9 30 0) [Some (mkst 2020 1 1 0 0 0)]).
    + reflexivity.
    + repeat constructor.
Defined.

(** ** The run *)

Lemma dedup_by_incl : forall P seen p, In p (dedup_by seen P) -> In p P.
Proof.
  induction P as [|q P IH]; intros seen p H; simpl in H; [contradiction|].
  destruct (mem (pkey q) seen).
  - right. eapply IH; exact H.
  - destruct H as [<-|H]; [now left|]. right. eapply IH; exact H.
Qed.

Lemma main_items_ok : forall dateparse fetch_feed cfg now_us log log' out,
  main_items dateparse fetch_feed cfg now_us log = (log', Ok out) ->
  exists c P, cutoff_of now_us (cfg_window_days cfg) = Ok c
    /\ pass_sources dateparse fetch_feed c (cfg_sources cfg) log = (log', Ok P)
    /\ out = aggregate (map pbuild (dedup_by [] P)) (cfg_max_items cfg).
Proof.
  intros dateparse fetch_feed cfg now_us log log' out H.
  rewrite main_items_pass in H.
  destruct (cutoff_of now_us (cfg_window_days cfg)) as [c|x]; [|discriminate].
  destruct (pass_sources dateparse fetch_feed c (cfg_sources cfg) log) as [l [P|x]] eqn:HP;
    [|discriminate].
  injection H as <- <-. exists c, P. auto.
Qed.

(** Every output item is built from an entry that survived the matcher and
    the window in one of the configured sources. *)
Lemma main_items_origin : forall dateparse fetch_feed cfg now_us log log' out it,
  main_items dateparse fetch_feed cfg now_us log = (log', Ok out) -> In it out ->
  exists c p, cutoff_of now_us (cfg_window_days cfg) = Ok c
    /\ it = pbuild p /\ from_run dateparse fetch_feed c (cfg_sources cfg) p.
Proof.
  intros dateparse fetch_feed cfg now_us log log' out it H Hin.
  destruct (main_items_ok _ _ _ _ _ _ _ H) as (c & P & Hc & HP & ->).
  apply aggregate_incl, in_map_iff in Hin as [p [<- Hp]].
  exists c, p. split; [exact Hc|split; [reflexivity|]].
  apply dedup_by_incl in Hp.
  exact (proj1 (Forall_forall _ _) (pass_sources_sound _ _ _ _ _ _ _ HP) p Hp).
Qed.

Lemma cutoff_of_ok : forall now_us wd c,
  cutoff_of now_us wd = Ok c -> c = mkdt (now_us - wd * us_per_day) (Some 0).
Proof.
  intros now_us wd c H. unfold cutoff_of in H.
  destruct (999999999 <? Z.abs wd); [discriminate|].
  destruct ((now_us - wd * us_per_day <? min_us) || (max_us <? now_us - wd * us_per_day));
    [discriminate|].
  now injection H as <-.
Qed.

Lemma dt_lt_false_utc : forall d c,
  dt_off c = Some 0 -> dt_lt d c = Ok false -> is_aware d = true /\ instant c <= instant d.
Proof.
  intros [du [o|]] [cu co] Hc H; simpl in Hc; subst co; unfold dt_lt in H; simpl in H;
    [|discriminate].
  injection H as H. apply Z.ltb_ge in H. split; [reflexivity|exact H].
Qed.

(** C7: with [cutoff] = run time minus [window_days] days, computed once,
    every output item is aware and not earlier than [cutoff]. *)
Theorem C7_window : forall dateparse fetch_feed cfg now_us log log' out,
  main_items dateparse fetch_feed cfg now_us log = (log', Ok out) ->
  exists c, cutoff_of now_us (cfg_window_days cfg) = Ok c
    /\ instant c = now_us - cfg_window_days cfg * us_per_day
    /\ forall it, In it out -> instant c <= instant (it_pubDate it).
Proof.
  intros dateparse fetch_feed cfg now_us log log' out H.
  destruct (main_items_ok _ _ _ _ _ _ _ H) as (c & P & Hc & _ & _).
  exists c. split; [exact Hc|].
  pose proof (cutoff_of_ok _ _ _ Hc) as Hcv.
  split; [subst c; unfold instant; simpl; lia|].
  intros it Hin.
  destruct (main_items_origin _ _ _ _ _ _ _ _ H Hin) as (c' & p & Hc' & -> & Hp).
  rewrite Hc in Hc'. injection Hc' as <-.
  destruct Hp as (src & url & es & _ & _ & _ & _ & _ & _ & _ & _ & Hlt).
  apply (dt_lt_false_utc (p_dt p) c); [subst c; reflexivity|exact Hlt].
Qed.

Lemma C7_window_witness :
  exists log' out,
    main_items iso_parse sample_feed (sample_cfg 400 [culture_src; image_src]) sample_now []
    = (log', Ok out)
    /\ exists c, cutoff_of sample_now 7 = Ok c
       /\ instant c = sample_now - 7 * us_per_day
       /\ forall it, In it out -> instant c <= instant (it_pubDate it).
Proof.
  destruct (main_items iso_parse sample_feed (sample_cfg 400 [culture_src; image_src])
              sample_now []) as [log' r] eqn:Hrun.
  vm_compute in Hrun.
  destruct r as [out|x]; [|discriminate].
  exists log', out. split; [reflexivity|].
  apply (C7_window iso_parse sample_feed (sample_cfg 400 [culture_src; image_src])
           sample_now [] log' out).
  exact Hrun.
Defined.

Lemma main_items_loop : forall dateparse fetch_feed cfg now_us log,
  main_items dateparse fetch_feed cfg now_us log
  = match cutoff_of now_us (cfg_window_days cfg) with
    | Raise x => (log, Raise x)
    | Ok c =>
        match loop_sources dateparse fetch_feed c (cfg_sources cfg) ([], []) log with
        | (l, Ok st) => (l, Ok (aggregate (fst st) (cfg_max_items cfg)))
        | (l, Raise x) => (l, Raise x)
        end
    end.
Proof.
  intros dateparse fetch_feed cfg now_us log. unfold main_items, mbind, mlift, mret.
  destruct (cutoff_of now_us (cfg_window_days cfg)) as [c|x]; [|reflexivity].
  destruct (loop_sources dateparse fetch_feed c (cfg_sources cfg) ([], []) log) as [l [st|x]];
    reflexivity.
Qed.

(** Without a parsed text field the chosen date is UTC: it comes from the
    decomposed fields or is the sentinel. *)
Lemma entry_date_parsed_utc : forall dateparse e d,
  pick_text dateparse (text_date_fields e) = None -> entry_date dateparse e = Ok d ->
  dt_off d = Some 0.
Proof.
  intros dateparse e d Ht H. unfold entry_date, pick_date in H. rewrite Ht in H.
  revert H. generalize (parsed_date_fields e) as fs.
  induction fs as [|[t|] fs IH]; intros H; simpl in H.
  - injection H as <-. reflexivity.
  - destruct t as [y mo dd h mi sc]. unfold datetime_utc in H.
    destruct (valid_ymdhms y mo dd h mi sc); simpl in H; [|discriminate].
    injection H as <-. reflexivity.
  - exact (IH H).
Qed.

(** C1, as stated (every collected timestamp is UTC), fails: a [published]
    value with a [+02:00] offset is kept with that offset. *)
Lemma C1_offset_kept :
  match main_items iso_parse sample_feed (sample_cfg 400 [culture_src]) sample_now [] with
  | (_, Ok out) => exists it, In it out /\ dt_off (it_pubDate it) = Some (7200 * us_per_sec)
  | (_, Raise _) => False
  end.
Proof. vm_compute. eexists. split; [left; reflexivity|reflexivity]. Qed.

(** C1 (amended): every item placed in the run collection (the [collected]
    state of the source loop, of which the output is the sorted and sliced
    part) comes from an entry [e] of a fetched source (the source's label
    is the item's category, [guid_for e] its guid), and its timestamp is the
    date chosen for [e]; it is aware; when one of the text fields parsed,
    it is exactly the parser's result, offset included; only otherwise
    (decomposed fields or the sentinel) is it UTC.  An entry with no
    derivable date gets the sentinel 1970-01-01T00:00:00Z instead of an
    error. *)
Theorem C1_aware_timestamps : forall dateparse fetch_feed cfg now_us log log' out,
  (main_items dateparse fetch_feed cfg now_us log = (log', Ok out) ->
     exists c collected seen,
       cutoff_of now_us (cfg_window_days cfg) = Ok c
       /\ loop_sources dateparse fetch_feed c (cfg_sources cfg) ([], []) log = (log', Ok (collected, seen))
       /\ out = aggregate collected (cfg_max_items cfg)
       /\ forall it, In it collected ->
            exists src url es e,
              In src (cfg_sources cfg) /\ s_url src = Some url /\ fetch_feed url = Some es
              /\ In e es /\ s_label src = Some (it_category it) /\ it_guid it = guid_for e
              /\ entry_date dateparse e = Ok (it_pubDate it)
              /\ is_aware (it_pubDate it) = true
              /\ (forall d, pick_text dateparse (text_date_fields e) = Some d -> it_pubDate it = d)
              /\ (pick_text dateparse (text_date_fields e) = None -> dt_off (it_pubDate it) = Some 0))
  /\ (forall e, pick_date dateparse e = Ok None -> entry_date dateparse e = Ok epoch)
  /\ epoch = mkdt (wall_us 1970 1 1 0 0 0) (Some 0).
Proof.
  intros dateparse fetch_feed cfg now_us log log' out. split; [|split].
  - intros H. pose proof H as H0. rewrite main_items_loop in H0.
    destruct (cutoff_of now_us (cfg_window_days cfg)) as [c|x] eqn:Hc; [|discriminate].
    destruct (loop_sources dateparse fetch_feed c (cfg_sources cfg) ([], []) log)
      as [l [[coll seen]|x]] eqn:Hl; [|discriminate].
    injection H0 as E1 E2. subst l out.
    exists c, coll, seen. split; [reflexivity|]. split; [exact Hl|]. split; [reflexivity|].
    intros it Hin.
    rewrite loop_sources_pass in Hl.
    destruct (pass_sources dateparse fetch_feed c (cfg_sources cfg) log) as [l' [P|x]] eqn:HP;
      [|discriminate].
    injection Hl as _ Ecoll _. subst coll. simpl in Hin.
    apply in_map_iff in Hin as [p [<- Hp]]. apply dedup_by_incl in Hp.
    pose proof (proj1 (Forall_forall _ _) (pass_sources_sound _ _ _ _ _ _ _ HP) p Hp) as Hr.
    destruct Hr as (src & url & es & Hsrc & Hu & Hf & Hlab & _ & He & _ & Hd & Hlt).
    exists src, url, es, (p_entry p).
    do 4 (split; [assumption|]). split; [exact Hlab|]. split; [reflexivity|].
    split; [exact Hd|]. split.
    + apply (dt_lt_false_utc (p_dt p) c); [|exact Hlt].
      rewrite (cutoff_of_ok _ _ _ Hc). reflexivity.
    + cbn [pbuild build_item it_pubDate]. split.
      * intros d Ht. unfold entry_date, pick_date in Hd. rewrite Ht in Hd.
        simpl in Hd. injection Hd as <-. reflexivity.
      * intros Ht. exact (entry_date_parsed_utc _ _ _ Ht Hd).
  - intros e H. unfold entry_date. rewrite H. reflexivity.
  - reflexivity.
Qed.

Lemma C1_aware_timestamps_witness :
  exists log' out,
    main_items iso_parse sample_feed (sample_cfg 400 [culture_src]) sample_now [] = (log', Ok out)
    /\ (exists c collected seen,
          cutoff_of sample_now (cfg_window_days (sample_cfg 400 [culture_src])) = Ok c
          /\ loop_sources iso_parse sample_feed c (cfg_sources (sample_cfg 400 [culture_src])) ([], []) [] = (log', Ok (collected, seen))
          /\ out = aggregate collected (cfg_max_items (sample_cfg 400 [culture_src]))
          /\ forall it, In it collected ->
               exists src url es e,
                 In src (cfg_sources (sample_cfg 400 [culture_src])) /\ s_url src = Some url /\ sample_feed url = Some es
                 /\ In e es /\ s_label src = Some (it_category it) /\ it_guid it = guid_for e
                 /\ entry_date iso_parse e = Ok (it_pubDate it)
                 /\ is_aware (it_pubDate it) = true
                 /\ (forall d, pick_text iso_parse (text_date_fields e) = Some d -> it_pubDate it = d)
                 /\ (pick_text iso_parse (text_date_fields e) = None -> dt_off (it_pubDate it) = Some 0))
    /\ entry_date iso_parse empty_entry = Ok epoch.
Proof.
  destruct (main_items iso_parse sample_feed (sample_cfg 400 [culture_src]) sample_now [])
    as [log' r] eqn:Hrun.
  vm_compute in Hrun.
  destruct r as [out|x]; [|discriminate].
  exists log', out. split; [reflexivity|].
  destruct (C1_aware_timestamps iso_parse sample_feed (sample_cfg 400 [culture_src])
              sample_now [] log' out) as (Hout & Hsent & _).
  split; [exact (Hout Hrun)|].
  apply Hsent. reflexivity.
Defined.

(** ** Deduplication *)

Lemma map_guid_pbuild : forall D, map it_guid (map pbuild D) = map pkey D.
Proof. intros D. rewrite map_map. reflexivity. Qed.

(** C3: no two output items share a guid.  With [P] the entries that pass
    the matcher and the window, over all sources in processing order, the
    collected items are built from the first entry of [P] for each guid and
    from no other. *)
Theorem C3_dedup_first_wins : forall dateparse fetch_feed cfg now_us log log' out,
  main_items dateparse fetch_feed cfg now_us log = (log', Ok out) ->
  NoDup (map it_guid out)
  /\ exists c P,
       cutoff_of now_us (cfg_window_days cfg) = Ok c
       /\ pass_sources dateparse fetch_feed c (cfg_sources cfg) log = (log', Ok P)
       /\ out = aggregate (map pbuild (dedup_by [] P)) (cfg_max_items cfg)
       /\ forall g,
            filter (fun it => String.eqb (it_guid it) g) (map pbuild (dedup_by [] P))
            = match find (fun p => String.eqb (pkey p) g) P with
              | Some p => [pbuild p]
              | None => []
              end.
Proof.
  intros dateparse fetch_feed cfg now_us log log' out H.
  destruct (main_items_ok _ _ _ _ _ _ _ H) as (c & P & Hc & HP & Hout).
  split.
  - rewrite Hout. apply aggregate_NoDup. rewrite map_guid_pbuild. apply dedup_by_NoDup.
  - exists c, P. split; [exact Hc|split; [exact HP|split; [exact Hout|]]].
    intros g. rewrite filter_map_swap. cbn beta.
    change (fun a => String.eqb (it_guid (pbuild a)) g) with (fun q => String.eqb (pkey q) g).
    rewrite dedup_by_filter. simpl.
    destruct (find (fun p => String.eqb (pkey p) g) P); reflexivity.
Qed.

Lemma C3_dedup_first_wins_witness :
  exists log' out,
    main_items iso_parse sample_feed (sample_cfg 400 [culture_src; culture_src]) sample_now []
    = (log', Ok out)
    /\ NoDup (map it_guid out).
Proof.
  destruct (main_items iso_parse sample_feed (sample_cfg 400 [culture_src; culture_src])
              sample_now []) as [log' r] eqn:Hrun.
  vm_compute in Hrun.
  destruct r as [out|x]; [|discriminate].
  exists log', out. split; [reflexivity|].
  exact (proj1 (C3_dedup_first_wins iso_parse sample_feed
                  (sample_cfg 400 [culture_src; culture_src]) sample_now [] log' out Hrun)).
Defined.

(** ** Sorting and truncation *)

(** C6, as stated (the output never exceeds the maximum), fails for a
    negative [max_items]: [collected[:-1]] keeps all but the last item. *)
Lemma C6_negative_max :
  match main_items iso_parse sample_feed (sample_cfg (-1) [culture_src]) sample_now [] with
  | (_, Ok out) => length out = 1%nat /\ ~ (Z.of_nat (length out) <= -1)
  | (_, Raise _) => False
  end.
Proof. vm_compute. split; [reflexivity|]. intros Hle. apply Hle. reflexivity. Qed.

(** C6 (amended): the collected items, in source-then-entry order, are
    stably sorted by descending timestamp (a permutation, descending, equal
    timestamps in collection order); a positive maximum keeps the first
    [max_items] (so at most that many), zero keeps all, and a negative
    maximum [-k] drops the last [k] (Python slicing). *)
Theorem C6_sort_truncate : forall dateparse fetch_feed cfg now_us log log' out,
  main_items dateparse fetch_feed cfg now_us log = (log', Ok out) ->
  exists collected,
    (exists c P, cutoff_of now_us (cfg_window_days cfg) = Ok c
       /\ pass_sources dateparse fetch_feed c (cfg_sources cfg) log = (log', Ok P)
       /\ collected = map pbuild (dedup_by [] P))
    /\ Permutation (sort_desc collected) collected
    /\ Sorted desc (sort_desc collected)
    /\ (forall k, filter (same_key k) (sort_desc collected) = filter (same_key k) collected)
    /\ (0 < cfg_max_items cfg ->
          out = firstn (Z.to_nat (cfg_max_items cfg)) (sort_desc collected)
          /\ Z.of_nat (length out) <= cfg_max_items cfg)
    /\ (cfg_max_items cfg = 0 -> out = sort_desc collected)
    /\ (cfg_max_items cfg < 0 ->
          out = firstn (Z.to_nat (Z.of_nat (length collected) + cfg_max_items cfg))
                       (sort_desc collected)).
Proof.
  intros dateparse fetch_feed cfg now_us log log' out H.
  destruct (main_items_ok _ _ _ _ _ _ _ H) as (c & P & Hc & HP & Hout).
  set (collected := map pbuild (dedup_by [] P)) in Hout.
  exists collected. split; [exists c, P; auto|].
  split; [apply sort_desc_perm|]. split; [apply sort_desc_sorted|].
  split; [intros k; apply sort_desc_stable|].
  unfold aggregate, py_slice_upto in Hout. split; [|split].
  - intros Hpos. rewrite Hout.
    destruct (Z.eqb_spec (cfg_max_items cfg) 0) as [E|E]; [lia|].
    destruct (Z.leb_spec 0 (cfg_max_items cfg)) as [_|E']; [|lia]. simpl.
    split; [reflexivity|].
    pose proof (firstn_le_length (Z.to_nat (cfg_max_items cfg)) (sort_desc collected)). lia.
  - intros Hz. rewrite Hout, Hz. reflexivity.
  - intros Hneg. rewrite Hout.
    destruct (Z.eqb_spec (cfg_max_items cfg) 0) as [E|E]; [lia|].
    destruct (Z.leb_spec 0 (cfg_max_items cfg)) as [E'|_]; [lia|]. simpl.
    rewrite (Permutation_length (sort_desc_perm collected)). reflexivity.
Qed.

Lemma C6_sort_truncate_witness :
  exists log' out,
    main_items iso_parse sample_feed (sample_cfg 2 [culture_src; image_src]) sample_now []
    = (log', Ok out)
    /\ Z.of_nat (length out) <= 2.
Proof.
  destruct (main_items iso_parse sample_feed (sample_cfg 2 [culture_src; image_src])
              sample_now []) as [log' r] eqn:Hrun.
  vm_compute in Hrun.
  destruct r as [out|x]; [|discriminate].
  exists log', out. split; [reflexivity|].
  destruct (C6_sort_truncate iso_parse sample_feed (sample_cfg 2 [culture_src; image_src])
              sample_now [] log' out Hrun) as (collected & _ & _ & _ & _ & Hpos & _).
  apply Hpos. reflexivity.
Defined.

(** ** Image enclosures *)

Lemma normalize_url_spec : forall h,
  startswith (normalize_url h) "//" = false
  /\ (startswith h "//" = true -> normalize_url h = "https:" ++ h).
Proof.
  intros h. unfold normalize_url, normalize_protocol.
  destruct (String.eqb h "") eqn:He.
  - apply String.eqb_eq in He. subst h. split; [reflexivity|discriminate].
  - simpl. destruct (startswith h "//") eqn:Hs; simpl; split; auto; discriminate.
Qed.

Lemma pick_enclosure_scan_spec : forall ens u,
  pick_enclosure_scan ens = Some u ->
  exists en, In en ens /\ startswith (lower (or_str (en_type en) "")) "image/" = true
    /\ u = normalize_url (or_str (en_href en) (or_str (en_url en) "")).
Proof.
  induction ens as [|en ens IH]; intros u H; simpl in H; [discriminate|].
  destruct (startswith (lower (or_str (en_type en) "")) "image/") eqn:Ht.
  - injection H as <-. exists en. split; [now left|]. split; [exact Ht|reflexivity].
  - destruct (IH u H) as [en' (Hin & R)]. exists en'. split; [now right|exact R].
Qed.

Lemma pick_enclosure_scan_none : forall ens,
  pick_enclosure_scan ens = None ->
  forall en, In en ens -> startswith (lower (or_str (en_type en) "")) "image/" = false.
Proof.
  induction ens as [|en ens IH]; intros H en' Hin; [contradiction|]. simpl in H.
  destruct (startswith (lower (or_str (en_type en) "")) "image/") eqn:Ht; [discriminate|].
  destruct Hin as [<-|Hin]; [exact Ht|]. exact (IH H en' Hin).
Qed.

Lemma pick_enclosure_link_scan_spec : forall ls u,
  pick_enclosure_link_scan ls = Some u ->
  exists L, In L ls /\ String.eqb (lower (or_str (l_rel L) "")) "enclosure" = true
    /\ startswith (lower (or_str (l_type L) "")) "image/" = true
    /\ u = normalize_url (or_str (l_href L) "").
Proof.
  induction ls as [|L ls IH]; intros u H; simpl in H; [discriminate|].
  destruct (String.eqb (lower (or_str (l_rel L) "")) "enclosure") eqn:Hr;
    destruct (startswith (lower (or_str (l_type L) "")) "image/") eqn:Ht; simpl in H;
    try (destruct (IH u H) as [L' (Hin & R)]; exists L'; split; [now right|exact R]).
  injection H as <-. exists L. split; [now left|]. auto.
Qed.

(** C9: an output item has an image URL only when it comes from an entry
    [e] of a fetched source (the source's label is the item's category,
    [guid_for e] its guid), that source set [take_image_enclosure], the
    URL is [pick_image_enclosure e], and [e] has an image-typed enclosure (the
    first one is used) or, failing that, an image-typed link with
    [rel="enclosure"]; the URL is protocol-normalised: never [//...], and a
    [//...] href becomes [https://...]. *)
Theorem C9_image_opt_in : forall dateparse fetch_feed cfg now_us log log' out,
  main_items dateparse fetch_feed cfg now_us log = (log', Ok out) ->
  forall it u, In it out -> it_image it = Some u ->
    exists src url es e,
      In src (cfg_sources cfg) /\ s_url src = Some url /\ fetch_feed url = Some es
      /\ In e es /\ s_label src = Some (it_category it) /\ it_guid it = guid_for e
      /\ s_take_img src = true /\ it_image it = pick_image_enclosure e
      /\ ((exists en, In en (e_enclosures e)
              /\ startswith (lower (or_str (en_type en) "")) "image/" = true
              /\ u = normalize_url (or_str (en_href en) (or_str (en_url en) "")))
          \/ ((forall en, In en (e_enclosures e) ->
                 startswith (lower (or_str (en_type en) "")) "image/" = false)
              /\ exists L, In L (e_links e)
                   /\ String.eqb (lower (or_str (l_rel L) "")) "enclosure" = true
                   /\ startswith (lower (or_str (l_type L) "")) "image/" = true
                   /\ u = normalize_url (or_str (l_href L) "")))
      /\ startswith u "//" = false
      /\ (forall h, startswith h "//" = true -> normalize_url h = "https:" ++ h).
Proof.
  intros dateparse fetch_feed cfg now_us log log' out H it u Hin Himg.
  destruct (main_items_origin _ _ _ _ _ _ _ _ H Hin) as (c & p & _ & -> & Hp).
  destruct Hp as (src & url & es & Hsrc & Hu & Hf & Hl & Htake & Hes & _).
  exists src, url, es, (p_entry p).
  simpl in Himg. rewrite Htake in Himg. destruct (s_take_img src); [|discriminate].
  do 4 (split; [auto|]). split; [exact Hl|]. split; [reflexivity|].
  split; [reflexivity|]. split; [simpl; rewrite Htake; reflexivity|].
  assert (Hsel : (exists en, In en (e_enclosures (p_entry p))
              /\ startswith (lower (or_str (en_type en) "")) "image/" = true
              /\ u = normalize_url (or_str (en_href en) (or_str (en_url en) "")))
          \/ ((forall en, In en (e_enclosures (p_entry p)) ->
                 startswith (lower (or_str (en_type en) "")) "image/" = false)
              /\ exists L, In L (e_links (p_entry p))
                   /\ String.eqb (lower (or_str (l_rel L) "")) "enclosure" = true
                   /\ startswith (lower (or_str (l_type L) "")) "image/" = true
                   /\ u = normalize_url (or_str (l_href L) ""))).
  { unfold pick_image_enclosure in Himg.
    destruct (pick_enclosure_scan (e_enclosures (p_entry p))) as [v|] eqn:Hs.
    - left. injection Himg as <-. now apply pick_enclosure_scan_spec.
    - right. split; [now apply pick_enclosure_scan_none|].
      now apply pick_enclosure_link_scan_spec. }
  split; [exact Hsel|]. split.
  - destruct Hsel as [(en & _ & _ & ->)|(_ & L & _ & _ & _ & ->)]; apply normalize_url_spec.
  - intros h. apply normalize_url_spec.
Qed.

Lemma C9_image_opt_in_witness :
  exists log' out,
    main_items iso_parse sample_feed (sample_cfg 400 [culture_src; image_src]) sample_now []
    = (log', Ok out)
    /\ exists it, In it out /\ it_image it = Some "https://cdn.example.com/img.jpg"
       /\ startswith "https://cdn.example.com/img.jpg" "//" = false.
Proof.
  destruct (main_items iso_parse sample_feed (sample_cfg 400 [culture_src; image_src])
              sample_now []) as [log' r] eqn:Hrun.
  pose proof Hrun as Hc. vm_compute in Hc.
  destruct r as [out|x]; [|discriminate].
  injection Hc as _ Hout.
  exists log', out. split; [reflexivity|].
  set (it := nth 2 out (mkitem "" "" "" "" epoch "" None)).
  assert (Hin : In it out) by (subst it; rewrite <- Hout; right; right; left; reflexivity).
  assert (Himg : it_image it = Some "https://cdn.example.com/img.jpg")
    by (subst it; rewrite <- Hout; reflexivity).
  exists it. split; [exact Hin|split; [exact Himg|]].
  destruct (C9_image_opt_in iso_parse sample_feed (sample_cfg 400 [culture_src; image_src])
              sample_now [] log' out Hrun it _ Hin Himg)
    as (src & url & es & e & _ & _ & _ & _ & _ & _ & _ & _ & _ & Hnorm & _).
  exact Hnorm.
Defined.

(** ** Invalid source configuration *)

Lemma pass_sources_bad : forall dateparse fetch_feed c bad post pre log log' r,
  (s_url bad = None \/ s_label bad = None) ->
  pass_sources dateparse fetch_feed c (app pre (bad :: post)) log = (log', r) ->
  (exists x, r = Raise x)
  /\ exists fetched rest,
       log' = app log fetched
       /\ app fetched rest
          = flat_map (fun s => match s_url s with Some u => [u] | None => [] end) pre.
Proof.
  intros dateparse fetch_feed c bad post pre.
  induction pre as [|src pre IH]; intros log log' r Hbad H; simpl in H;
    unfold mbind, mlift, parse_feed, mret in H.
  - destruct Hbad as [Hb|Hb]; rewrite Hb in H; simpl in H.
    + injection H as <- <-. split; [eexists; reflexivity|].
      exists [], []. rewrite app_nil_r. split; reflexivity.
    + destruct (s_url bad); simpl in H; injection H as <- <-;
        (split; [eexists; reflexivity|]); exists [], []; rewrite app_nil_r; split; reflexivity.
  - destruct (s_url src) as [url|] eqn:Hu; simpl in H.
    2: { injection H as <- <-. split; [eexists; reflexivity|].
         exists [], (flat_map (fun s => match s_url s with Some u => [u] | None => [] end)
                       (src :: pre)).
         rewrite app_nil_r. split; reflexivity. }
    destruct (s_label src) as [label|]; simpl in H.
    2: { injection H as <- <-. split; [eexists; reflexivity|].
         exists [], (flat_map (fun s => match s_url s with Some u => [u] | None => [] end)
                       (src :: pre)).
         rewrite app_nil_r. split; reflexivity. }
    simpl. rewrite Hu.
    assert (Hstep : forall l2 r2,
      pass_sources dateparse fetch_feed c (app pre (bad :: post)) (app log [url]) = (l2, r2) ->
      (exists x, r2 = Raise x)
      /\ exists fetched rest, l2 = app log fetched
          /\ app fetched rest
             = app [url] (flat_map (fun s => match s_url s with Some u => [u] | None => [] end) pre)).
    { intros l2 r2 H2. destruct (IH _ _ _ Hbad H2) as [Hr (f & rest & -> & Hf)].
      split; [exact Hr|]. exists (url :: f), rest. rewrite <- app_assoc. simpl.
      split; [reflexivity|]. now rewrite Hf. }
    destruct (fetch_feed url) as [es|].
    + destruct (pass_entries dateparse label (s_match src) (s_take_img src)
                  (s_title_only src) c es) as [P|x].
      * destruct (pass_sources dateparse fetch_feed c (app pre (bad :: post)) (app log [url]))
          as [l2 r2] eqn:H2.
        destruct (Hstep l2 r2 eq_refl) as [[x Hx] Hf]. subst r2.
        injection H as <- <-. split; [eexists; reflexivity|exact Hf].
      * injection H as <- <-. split; [eexists; reflexivity|].
        exists [url], (flat_map (fun s => match s_url s with Some u => [u] | None => [] end) pre).
        split; reflexivity.
    + exact (Hstep log' r H).
Qed.

Lemma loop_sources_app : forall dateparse fetch_feed c pre rest st log,
  loop_sources dateparse fetch_feed c (app pre rest) st log
  = match loop_sources dateparse fetch_feed c pre st log with
    | (l, Ok st') => loop_sources dateparse fetch_feed c rest st' l
    | (l, Raise x) => (l, Raise x)
    end.
Proof.
  intros dateparse fetch_feed c pre rest.
  induction pre as [|src pre IH]; intros st log; simpl; [reflexivity|].
  unfold mbind, mlift, parse_feed, mret.
  destruct (s_url src) as [url|]; simpl; [|reflexivity].
  destruct (s_label src) as [label|]; simpl; [|reflexivity].
  destruct (fetch_feed url) as [es|]; [|apply IH].
  destruct (loop_entries dateparse label (s_match src) (s_take_img src)
              (s_title_only src) c es st) as [st'|x]; [apply IH|reflexivity].
Qed.

(** A loop over sources that runs through has fetched each of them, in order. *)
Lemma loop_sources_log : forall dateparse fetch_feed c pre st log l st',
  loop_sources dateparse fetch_feed c pre st log = (l, Ok st') ->
  Forall (fun s => s_url s <> None) pre
  /\ l = app log (flat_map (fun s => match s_url s with Some u => [u] | None => [] end) pre).
Proof.
  intros dateparse fetch_feed c pre.
  induction pre as [|src pre IH]; intros st log l st' H; simpl in H.
  - unfold mret in H. injection H as <- _. split; [constructor|]. simpl. now rewrite app_nil_r.
  - unfold mbind, mlift, parse_feed, mret in H.
    destruct (s_url src) as [url|] eqn:Hu; simpl in H; [|discriminate].
    destruct (s_label src) as [label|]; simpl in H; [|discriminate].
    assert (Hk : forall st0, loop_sources dateparse fetch_feed c pre st0 (app log [url]) = (l, Ok st') ->
              Forall (fun s => s_url s <> None) (src :: pre)
              /\ l = app log (flat_map (fun s => match s_url s with Some u => [u] | None => [] end)
                                      (src :: pre))).
    { intros st0 H0. destruct (IH _ _ _ _ H0) as [Hall ->].
      split; [constructor; [rewrite Hu; discriminate|exact Hall]|].
      simpl. rewrite Hu, <- app_assoc. reflexivity. }
    destruct (fetch_feed url) as [es|]; [|exact (Hk st H)].
    destruct (loop_entries dateparse label (s_match src) (s_take_img src)
                (s_title_only src) c es st) as [st0|x]; [exact (Hk st0 H)|discriminate].
Qed.

(** The loop reaching a source without [url] or [label] raises at once. *)
Lemma loop_sources_bad : forall dateparse fetch_feed c bad post st log,
  (s_url bad = None \/ s_label bad = None) ->
  loop_sources dateparse fetch_feed c (bad :: post) st log
  = (log, Raise (KeyError (match s_url bad with Some _ => "label" | None => "url" end))).
Proof.
  intros dateparse fetch_feed c bad post st log Hbad. simpl.
  unfold mbind, mlift.
  destruct (s_url bad) as [url|]; simpl; [|reflexivity].
  destruct Hbad as [Hb|Hb]; [discriminate|]. rewrite Hb. reflexivity.
Qed.

(** C2, as stated (no source fetched at all), fails: a source before the
    one missing its [url] has already been fetched when the run aborts. *)
Lemma C2_earlier_source_fetched :
  main_items iso_parse sample_feed (sample_cfg 400 [culture_src; no_url_src]) sample_now []
  = (["https://a.example/feed"], Raise (KeyError "url")).
Proof. vm_compute. reflexivity. Qed.

(** C2 (amended): a source missing its [url] or [label] makes the run
    raise [KeyError] when the loop reaches it, unless the cutoff or an
    earlier source raised first.  If the sources before it ran through,
    every one of them has a [url] and has been fetched, in order, and
    nothing after them (neither the invalid source nor any later one) is
    fetched. *)
Theorem C2_bad_source_aborts : forall dateparse fetch_feed cfg now_us log pre bad post,
  cfg_sources cfg = app pre (bad :: post) ->
  (s_url bad = None \/ s_label bad = None) ->
  match cutoff_of now_us (cfg_window_days cfg) with
  | Raise x => main_items dateparse fetch_feed cfg now_us log = (log, Raise x)
  | Ok c =>
      match loop_sources dateparse fetch_feed c pre ([], []) log with
      | (l, Ok _) =>
          Forall (fun s => s_url s <> None) pre
          /\ l = app log (flat_map (fun s => match s_url s with Some u => [u] | None => [] end) pre)
          /\ main_items dateparse fetch_feed cfg now_us log
             = (l, Raise (KeyError (match s_url bad with Some _ => "label" | None => "url" end)))
      | (l, Raise x) => main_items dateparse fetch_feed cfg now_us log = (l, Raise x)
      end
  end.
Proof.
  intros dateparse fetch_feed cfg now_us log pre bad post Hs Hbad.
  rewrite main_items_loop.
  destruct (cutoff_of now_us (cfg_window_days cfg)) as [c|x]; [|reflexivity].
  rewrite Hs, loop_sources_app.
  destruct (loop_sources dateparse fetch_feed c pre ([], []) log) as [l [st|x]] eqn:Hpre;
    [|reflexivity].
  destruct (loop_sources_log _ _ _ _ _ _ _ _ Hpre) as [Hall Hl].
  split; [exact Hall|]. split; [exact Hl|].
  rewrite (loop_sources_bad dateparse fetch_feed c bad post st l Hbad). reflexivity.
Qed.

Lemma C2_bad_source_aborts_witness :
  match cutoff_of sample_now 7 with
  | Raise x => main_items iso_parse sample_feed
                 (sample_cfg 400 [culture_src; no_url_src; image_src]) sample_now []
               = ([], Raise x)
  | Ok c =>
      match loop_sources iso_parse sample_feed c [culture_src] ([], []) [] with
      | (l, Ok _) =>
          Forall (fun s => s_url s <> None) [culture_src]
          /\ l = app [] (flat_map (fun s => match s_url s with Some u => [u] | None => [] end)
                                  [culture_src])
          /\ main_items iso_parse sample_feed
               (sample_cfg 400 [culture_src; no_url_src; image_src]) sample_now []
             = (l, Raise (KeyError (match s_url no_url_src with
                                    | Some _ => "label" | None => "url" end)))
      | (l, Raise x) => main_items iso_parse sample_feed
                          (sample_cfg 400 [culture_src; no_url_src; image_src]) sample_now []
                        = (l, Raise x)
      end
  end.
Proof.
  exact (C2_bad_source_aborts iso_parse sample_feed
           (sample_cfg 400 [culture_src; no_url_src; image_src]) sample_now []
           [culture_src] no_url_src [image_src] eq_refl (or_introl eq_refl)).
Defined.

(** * Further properties of the code *)

(** ** [rfc822]: the civil calendar *)















(** ** [rfc822]: the year range *)

Lemma yoe_bounds : forall doe yoe, 0 <= doe < 146097 ->
  yoe = (doe - doe / 1460 + doe / 36524 - doe / 146096) / 365 ->
  0 <= yoe <= 399 /\ (365 <= doe -> 1 <= yoe) /\ (doe < 145731 -> yoe <= 398)
  /\ (doe < 365 -> yoe = 0) /\ (145731 <= doe -> yoe = 399).
Proof.
  intros doe yoe H ->.
  pose proof (Z.div_mod doe 1460 ltac:(lia)). pose proof (Z.mod_pos_bound doe 1460 ltac:(lia)).
  pose proof (Z.div_mod doe 36524 ltac:(lia)). pose proof (Z.mod_pos_bound doe 36524 ltac:(lia)).
  pose proof (Z.div_mod doe 146096 ltac:(lia)). pose proof (Z.mod_pos_bound doe 146096 ltac:(lia)).
  set (a := doe / 1460) in *. set (b := doe / 36524) in *. set (c := doe / 146096) in *.
  pose proof (Z.div_mod (doe - a + b - c) 365 ltac:(lia)).
  pose proof (Z.mod_pos_bound (doe - a + b - c) 365 ltac:(lia)).
  set (y := (doe - a + b - c) / 365) in *.
  lia.
Qed.

Lemma doe_fields : forall doe, 0 <= doe < 146097 ->
  let '(yoe, m, d) := civil_of_doe doe in
  0 <= yoe <= 399
  /\ (doe < 306 -> yoe = 0 /\ 3 <= m)
  /\ (306 <= doe -> 1 <= yoe \/ m <= 2)
  /\ (146037 <= doe -> yoe = 399 /\ m <= 2)
  /\ (doe < 146037 -> yoe <= 398 \/ 3 <= m).
Proof.
  intros doe Hd. unfold civil_of_doe.
  destruct (yoe_bounds doe _ Hd eq_refl) as (Y1 & Y2 & Y3 & Y4 & Y5).
  assert (Hdoy2 : 0 <= doe - (365 * ((doe - doe / 1460 + doe / 36524 - doe / 146096) / 365)
      + (doe - doe / 1460 + doe / 36524 - doe / 146096) / 365 / 4
      - (doe - doe / 1460 + doe / 36524 - doe / 146096) / 365 / 100) <= 365).
  { pose proof (Z.div_mod doe 1460 ltac:(lia)). pose proof (Z.mod_pos_bound doe 1460 ltac:(lia)).
    pose proof (Z.div_mod doe 36524 ltac:(lia)). pose proof (Z.mod_pos_bound doe 36524 ltac:(lia)).
    pose proof (Z.div_mod doe 146096 ltac:(lia)). pose proof (Z.mod_pos_bound doe 146096 ltac:(lia)).
    set (a := doe / 1460) in *. set (b := doe / 36524) in *. set (c := doe / 146096) in *.
    pose proof (Z.div_mod (doe - a + b - c) 365 ltac:(lia)).
    pose proof (Z.mod_pos_bound (doe - a + b - c) 365 ltac:(lia)).
    set (y := (doe - a + b - c) / 365) in *.
    pose proof (Z.div_mod y 4 ltac:(lia)). pose proof (Z.mod_pos_bound y 4 ltac:(lia)).
    pose proof (Z.div_mod y 100 ltac:(lia)). pose proof (Z.mod_pos_bound y 100 ltac:(lia)).
    set (y4 := y / 4) in *. set (y100 := y / 100) in *.
    clearbody a b c y y4 y100. lia. }
  remember ((doe - doe / 1460 + doe / 36524 - doe / 146096) / 365) as yoe eqn:Ey. clear Ey.
  remember (doe - (365 * yoe + yoe / 4 - yoe / 100)) as doy eqn:Edoy.
  assert (Hdoy0 : doe < 365 -> doy = doe).
  { intros H. subst doy. rewrite (Y4 H). change (365 * 0 + 0 / 4 - 0 / 100) with 0. ring. }
  assert (Hdoy1 : 145731 <= doe -> doy = doe - 145731).
  { intros H. subst doy. rewrite (Y5 H). reflexivity. }
  clear Edoy.
  remember ((5 * doy + 2) / 153) as mp eqn:Emp.
  assert (M1 : doy < 306 -> mp < 10) by (intros; subst mp; apply Z.div_lt_upper_bound; lia).
  assert (M2 : 306 <= doy -> 10 <= mp) by (intros; subst mp; apply Z.div_le_lower_bound; lia).
  assert (M0 : 0 <= mp < 12) by (subst mp; split; [apply Z.div_pos|apply Z.div_lt_upper_bound]; lia).
  clear Emp.
  destruct (Z.ltb_spec mp 10); lia.
Qed.

Lemma civil_year_range : forall z,
  (let '(y, _, _) := civil_from_days z in 1 <= y <= 9999) <-> -719162 <= z <= 2932896.
Proof.
  intros z. unfold civil_from_days.
  set (z' := z + 719468). set (era := z' / 146097).
  pose proof (Z.div_mod z' 146097 ltac:(lia)). pose proof (Z.mod_pos_bound z' 146097 ltac:(lia)).
  assert (Hd : 0 <= z' - era * 146097 < 146097) by (unfold era; lia).
  pose proof (doe_fields _ Hd) as F.
  destruct (civil_of_doe (z' - era * 146097)) as [[yoe m] d].
  destruct F as (F1 & F2 & F3 & F4 & F5).
  destruct (Z.leb_spec m 2); unfold era in *; lia.
Qed.

Lemma instant_utc : forall dt,
  instant (match dt_off dt with None => mkdt (dt_us dt) (Some 0) | Some _ => dt end) = instant dt.
Proof. intros [u [o|]]; reflexivity. Qed.

(** X2: [rfc822] returns a string exactly when the instant lies in years
    1..9999 UTC ([min_us] to [max_us]); otherwise [astimezone] raises
    [OverflowError]. *)
Theorem rfc822_range : forall dt,
  match rfc822 dt with
  | Ok _ => min_us <= instant dt <= max_us
  | Raise x => x = OverflowError /\ (instant dt < min_us \/ max_us < instant dt)
  end.
Proof.
  intros dt. unfold rfc822. rewrite instant_utc.
  set (u := instant dt). set (days := u / us_per_day).
  pose proof (civil_year_range days) as R.
  assert (Hmin : min_us = -719162 * us_per_day) by reflexivity.
  assert (Hmax : max_us = 2932897 * us_per_day - 1) by reflexivity.
  pose proof (Z.div_mod u us_per_day ltac:(unfold us_per_day, us_per_sec; lia)).
  pose proof (Z.mod_pos_bound u us_per_day ltac:(unfold us_per_day, us_per_sec; lia)).
  fold days in H, R.
  destruct (civil_from_days days) as [[y m] d].
  destruct (Z.ltb_spec y 1), (Z.ltb_spec 9999 y); cbn [orb];
    unfold us_per_day, us_per_sec in *; clearbody days.
  all: clearbody u; rewrite Hmin, Hmax; try (split; [reflexivity|]); lia.
Qed.

(** ** [pick_link] and the run *)

Lemma normalize_url_fixed : forall u, startswith u "//" = false -> normalize_url u = u.
Proof.
  intros u H. unfold normalize_url, normalize_protocol.
  destruct (String.eqb u ""); [reflexivity|]. now rewrite H, andb_false_r.
Qed.

(** X3: [normalize_url] is idempotent: a second pass changes nothing. *)
Theorem normalize_url_idem : forall u, normalize_url (normalize_url u) = normalize_url u.
Proof.
  intros u. destruct (startswith u "//") eqn:Hs.
  - rewrite (proj2 (normalize_url_spec u) Hs). apply normalize_url_fixed. reflexivity.
  - rewrite !(normalize_url_fixed u Hs). reflexivity.
Qed.

Lemma truthy_norm : forall h, truthy (normalize_url_opt h) = truthy h.
Proof.
  intros [u|]; [|reflexivity]. simpl. unfold normalize_url, normalize_protocol.
  destruct (String.eqb u "") eqn:He; [now rewrite He|]. simpl.
  destruct (startswith u "//"); simpl; [reflexivity|now rewrite He].
Qed.

Lemma scan_preferred : forall pre L post best,
  Forall (fun L' => link_preferred L' = false) pre -> link_preferred L = true ->
  pick_link_scan (app pre (L :: post)) best = inl (normalize_url_opt (l_href L)).
Proof.
  induction pre as [|L' pre IH]; intros L post best Hpre HL; simpl.
  - unfold link_preferred, link_alternate in HL. rewrite HL. reflexivity.
  - inversion Hpre as [|? ? HL' Hpre']; subst.
    unfold link_preferred, link_alternate in HL'. rewrite HL'. apply IH; assumption.
Qed.

Lemma scan_keep_best : forall ls best,
  Forall (fun L => link_preferred L = false) ls -> truthy best = true ->
  pick_link_scan ls best = inr best.
Proof.
  induction ls as [|L ls IH]; intros best Hls Hb; simpl; [reflexivity|].
  inversion Hls as [|? ? HL Hls']; subst.
  unfold link_preferred, link_alternate in HL. rewrite HL, Hb. simpl. apply IH; assumption.
Qed.

Lemma scan_first_alternate : forall pre L post best,
  Forall (fun L' => link_preferred L' = false) (app pre (L :: post)) -> truthy best = false ->
  Forall (fun L' => link_alternate L' = false \/ truthy (l_href L') = false) pre ->
  link_alternate L = true -> truthy (l_href L) = true ->
  pick_link_scan (app pre (L :: post)) best = inr (normalize_url_opt (l_href L)).
Proof.
  induction pre as [|L' pre IH]; intros L post best Hall Hb Hpre HL Hh; simpl.
  - inversion Hall as [|? ? HLp Hpost]; subst.
    unfold link_preferred, link_alternate in HLp, HL. rewrite HLp, Hb, HL. simpl.
    apply scan_keep_best; [exact Hpost|now rewrite truthy_norm].
  - inversion Hall as [|? ? HLp Hrest]; subst. inversion Hpre as [|? ? HL' Hpre']; subst.
    unfold link_preferred, link_alternate in HLp. rewrite HLp, Hb. simpl.
    apply IH; auto.
    destruct HL' as [Ha|Hf].
    + unfold link_alternate in Ha. rewrite Ha. exact Hb.
    + destruct (String.eqb (lower (or_str (l_rel L') "")) "alternate"); [|exact Hb].
      now rewrite truthy_norm.
Qed.

Lemma scan_no_alternate : forall ls best,
  Forall (fun L => link_preferred L = false) ls -> truthy best = false ->
  Forall (fun L => link_alternate L = false \/ truthy (l_href L) = false) ls ->
  exists b, pick_link_scan ls best = inr b /\ truthy b = false.
Proof.
  induction ls as [|L ls IH]; intros best Hls Hb Hal; simpl; [exists best; auto|].
  inversion Hls as [|? ? HL Hls']; subst. inversion Hal as [|? ? HA Hal']; subst.
  unfold link_preferred, link_alternate in HL. rewrite HL, Hb. simpl.
  apply IH; auto.
  destruct HA as [Ha|Hf].
  - unfold link_alternate in Ha. rewrite Ha. exact Hb.
  - destruct (String.eqb (lower (or_str (l_rel L) "")) "alternate"); [|exact Hb].
    now rewrite truthy_norm.
Qed.

(** X4: [pick_link]: a truthy [link] wins; otherwise the first [alternate]
    link of type [text/html] or without type; otherwise the first [alternate]
    link with a truthy [href]; otherwise the first link's [href], or the
    empty string without links. Every [href] goes through [normalize_url]. *)
Theorem pick_link_choice : forall e,
  (truthy (e_link e) = true -> pick_link e = normalize_url_opt (e_link e))
  /\ (truthy (e_link e) = false ->
      (forall pre L post, e_links e = app pre (L :: post) ->
         Forall (fun L' => link_preferred L' = false) pre -> link_preferred L = true ->
         pick_link e = normalize_url_opt (l_href L))
      /\ (Forall (fun L => link_preferred L = false) (e_links e) ->
          forall pre L post, e_links e = app pre (L :: post) ->
          Forall (fun L' => link_alternate L' = false \/ truthy (l_href L') = false) pre ->
          link_alternate L = true -> truthy (l_href L) = true ->
          pick_link e = normalize_url_opt (l_href L))
      /\ (Forall (fun L => link_preferred L = false) (e_links e) ->
          Forall (fun L => link_alternate L = false \/ truthy (l_href L) = false) (e_links e) ->
          pick_link e = match e_links e with
                        | L :: _ => normalize_url_opt (l_href L)
                        | [] => Some ""
                        end)).
Proof.
  intros e. unfold pick_link. split; [intros H; now rewrite H|]. intros Hl. rewrite Hl.
  split; [|split].
  - intros pre L post He Hpre HL. rewrite He, scan_preferred by assumption. reflexivity.
  - intros Hall pre L post He Hpre HL Hh. rewrite He in *.
    rewrite scan_first_alternate by (try assumption; reflexivity).
    now rewrite truthy_norm, Hh.
  - intros Hall Hal.
    destruct (scan_no_alternate (e_links e) (Some "") Hall eq_refl Hal) as [b [-> Hb]].
    rewrite Hb. reflexivity.
Qed.


Lemma no_pr_norm : forall h, no_pr (normalize_url_opt h).
Proof. intros [h|] u H; inversion H; subst. apply normalize_url_spec. Qed.

Lemma scan_no_pr : forall ls best, no_pr best ->
  match pick_link_scan ls best with inl v => no_pr v | inr b => no_pr b end.
Proof.
  induction ls as [|L ls IH]; intros best Hb; simpl; [exact Hb|].
  destruct (_ && _); [apply no_pr_norm|]. apply IH.
  destruct (negb (truthy best) && _); [apply no_pr_norm|exact Hb].
Qed.

Lemma pick_link_no_pr : forall e, no_pr (pick_link e).
Proof.
  intros e. unfold pick_link. destruct (truthy (e_link e)); [apply no_pr_norm|].
  assert (H0 : no_pr (Some "")) by (intros u H; now inversion H).
  pose proof (scan_no_pr (e_links e) (Some "") H0) as H.
  destruct (pick_link_scan (e_links e) (Some "")) as [v|b]; [exact H|].
  destruct (truthy b); [exact H|]. destruct (e_links e); [exact H0|apply no_pr_norm].
Qed.

(** X5: no output item has a protocol-relative link: every [link] of the
    run's items starts otherwise than with [//]. *)
Theorem item_links_not_protocol_relative : forall dateparse fetch_feed cfg now_us log log' out,
  main_items dateparse fetch_feed cfg now_us log = (log', Ok out) ->
  forall it, In it out -> startswith (it_link it) "//" = false.
Proof.
  intros dateparse fetch_feed cfg now_us log log' out H it Hin.
  destruct (main_items_origin _ _ _ _ _ _ _ _ H Hin) as (c & p & _ & -> & _).
  simpl. pose proof (pick_link_no_pr (p_entry p)) as Hp.
  destruct (pick_link (p_entry p)) as [u|]; [|reflexivity]. simpl.
  destruct (String.eqb u ""); [reflexivity|]. now apply Hp.
Qed.

Lemma aggregate_length_pos : forall l n, 0 < n -> (length (aggregate l n) <= Z.to_nat n)%nat.
Proof.
  intros l n Hn. unfold aggregate, py_slice_upto.
  destruct (Z.eqb_spec n 0); [lia|]. destruct (Z.leb_spec 0 n); [|lia].
  apply firstn_le_length.
Qed.

(** X6: without [max_items] in the configuration the run keeps at most
    400 items; without [window_days] every item is at most 7 days older
    than the run start. *)
Theorem config_defaults : forall dateparse fetch_feed rc now_us log log' out,
  main_items dateparse fetch_feed (read_config rc) now_us log = (log', Ok out) ->
  (rc_max_items rc = None -> (length out <= 400)%nat)
  /\ (rc_window_days rc = None ->
      forall it, In it out -> now_us - 7 * us_per_day <= instant (it_pubDate it)).
Proof.
  intros dateparse fetch_feed rc now_us log log' out H. split.
  - intros Hm. destruct (main_items_ok _ _ _ _ _ _ _ H) as (c & P & _ & _ & ->).
    unfold read_config. cbn [cfg_max_items]. rewrite Hm. cbn [get_default].
    apply (aggregate_length_pos _ 400). lia.
  - intros Hw it Hin.
    destruct (main_items_origin _ _ _ _ _ _ _ _ H Hin) as (c & p & Hc & -> & Hp).
    destruct Hp as (src & url & es & _ & _ & _ & _ & _ & _ & _ & _ & Hlt).
    pose proof (cutoff_of_ok _ _ _ Hc) as Hcv. unfold read_config in Hcv. simpl in Hcv.
    rewrite Hw in Hcv. simpl in Hcv.
    destruct (dt_lt_false_utc (p_dt p) c) as [_ Hle]; [subst c; reflexivity|exact Hlt|].
    subst c. cbn [pbuild build_item it_pubDate]. unfold instant in Hle |- *. cbn [dt_us dt_off] in Hle. unfold us_per_day, us_per_sec in *. lia.
Qed.

Lemma pass_sources_log : forall dateparse fetch_feed c srcs log,
  pass_sources dateparse fetch_feed c srcs log
  = (app log (fst (pass_sources dateparse fetch_feed c srcs [])),
     snd (pass_sources dateparse fetch_feed c srcs [])).
Proof.
  intros dateparse fetch_feed c. induction srcs as [|src srcs IH]; intros log; simpl.
  - unfold mret. rewrite app_nil_r. reflexivity.
  - unfold mbind, mlift, parse_feed, mret.
    destruct (s_url src) as [url|]; simpl; [|now rewrite app_nil_r].
    destruct (s_label src) as [label|]; simpl; [|now rewrite app_nil_r].
    destruct (fetch_feed url) as [es|].
    + destruct (pass_entries dateparse label (s_match src) (s_take_img src)
                  (s_title_only src) c es) as [P|x]; [|reflexivity].
      rewrite (IH (app log [url])), (IH [url]).
      destruct (pass_sources dateparse fetch_feed c srcs []) as [l r]. simpl.
      destruct r; simpl; now rewrite <- app_assoc.
    + rewrite (IH (app log [url])), (IH [url]). simpl. now rewrite <- app_assoc.
Qed.

Lemma pass_sources_skip : forall dateparse fetch_feed c pre s post url log,
  s_url s = Some url -> s_label s <> None -> fetch_feed url = None ->
  snd (pass_sources dateparse fetch_feed c (app pre (s :: post)) log)
  = snd (pass_sources dateparse fetch_feed c (app pre post) log).
Proof.
  intros dateparse fetch_feed c pre s post url log Hu Hl Hf.
  revert log. induction pre as [|src pre IH]; intros log; simpl.
  - unfold mbind, mlift, parse_feed. rewrite Hu. destruct (s_label s); [|contradiction].
    simpl. rewrite Hf. rewrite (pass_sources_log _ _ _ post (app log [url])),
      (pass_sources_log _ _ _ post log). reflexivity.
  - unfold mbind, mlift, parse_feed, mret.
    destruct (s_url src) as [u|]; simpl; [|reflexivity].
    destruct (s_label src) as [label|]; simpl; [|reflexivity].
    destruct (fetch_feed u) as [es|]; [|apply IH].
    destruct (pass_entries dateparse label (s_match src) (s_take_img src)
                (s_title_only src) c es) as [P|x]; [|reflexivity].
    specialize (IH (app log [u])).
    destruct (pass_sources dateparse fetch_feed c (app pre (s :: post)) (app log [u])) as [l1 r1].
    destruct (pass_sources dateparse fetch_feed c (app pre post) (app log [u])) as [l2 r2].
    simpl in IH. subst r2. destruct r1; reflexivity.
Qed.

(** X7: a source whose feed cannot be fetched or parsed is skipped: the
    run's result is the one of the same configuration without that source. *)
Theorem failed_source_skipped : forall dateparse fetch_feed cfg now_us log pre s post url,
  cfg_sources cfg = app pre (s :: post) ->
  s_url s = Some url -> s_label s <> None -> fetch_feed url = None ->
  snd (main_items dateparse fetch_feed cfg now_us log)
  = snd (main_items dateparse fetch_feed
           (mkcfg (cfg_window_days cfg) (cfg_max_items cfg) (app pre post)) now_us log).
Proof.
  intros dateparse fetch_feed cfg now_us log pre s post url Hs Hu Hl Hf.
  rewrite !main_items_pass. simpl. rewrite Hs.
  destruct (cutoff_of now_us (cfg_window_days cfg)) as [c|x]; [|reflexivity].
  pose proof (pass_sources_skip dateparse fetch_feed c pre s post url log Hu Hl Hf) as E.
  destruct (pass_sources dateparse fetch_feed c (app pre (s :: post)) log) as [l1 r1].
  destruct (pass_sources dateparse fetch_feed c (app pre post) log) as [l2 r2].
  simpl in E. subst r2. destruct r1; reflexivity.
Qed.

(** X8: a [window_days] that [timedelta] refuses, or a cutoff outside
    years 1..9999, aborts the run with [OverflowError] before any fetch. *)
Theorem cutoff_overflow_aborts : forall dateparse fetch_feed cfg now_us log,
  (999999999 < Z.abs (cfg_window_days cfg)
   \/ now_us - cfg_window_days cfg * us_per_day < min_us
   \/ max_us < now_us - cfg_window_days cfg * us_per_day) ->
  main_items dateparse fetch_feed cfg now_us log = (log, Raise OverflowError).
Proof.
  intros dateparse fetch_feed cfg now_us log H. rewrite main_items_pass.
  unfold cutoff_of.
  destruct (Z.ltb_spec 999999999 (Z.abs (cfg_window_days cfg))); [reflexivity|].
  destruct (Z.ltb_spec (now_us - cfg_window_days cfg * us_per_day) min_us); [reflexivity|].
  destruct (Z.ltb_spec max_us (now_us - cfg_window_days cfg * us_per_day)); [reflexivity|].
  lia.
Qed.

Lemma pick_link_choice_witness :
  pick_link atom_entry = normalize_url_opt (Some "//x.example/page").
Proof.
  apply (proj1 (proj2 (pick_link_choice atom_entry) eq_refl)
           [mklink (Some "alternate") (Some "application/rss+xml") (Some "//x.example/feed")]
           (mklink (Some "ALTERNATE") (Some "text/html; charset=utf-8") (Some "//x.example/page"))
           []); [reflexivity|repeat constructor|reflexivity].
Defined.

Lemma item_links_not_protocol_relative_witness :
  exists log' out,
    main_items iso_parse sample_feed (sample_cfg 400 [culture_src; image_src]) sample_now []
    = (log', Ok out)
    /\ forall it, In it out -> startswith (it_link it) "//" = false.
Proof.
  destruct (main_items iso_parse sample_feed (sample_cfg 400 [culture_src; image_src])
              sample_now []) as [log' r] eqn:Hrun.
  vm_compute in Hrun.
  destruct r as [out|x]; [|discriminate].
  exists log', out. split; [reflexivity|].
  exact (item_links_not_protocol_relative iso_parse sample_feed
           (sample_cfg 400 [culture_src; image_src]) sample_now [] log' out Hrun).
Defined.

Lemma config_defaults_witness :
  exists log' out,
    main_items iso_parse sample_feed (read_config (sources_only_raw [culture_src; image_src]))
      sample_now [] = (log', Ok out)
    /\ (length out <= 400)%nat
    /\ forall it, In it out -> sample_now - 7 * us_per_day <= instant (it_pubDate it).
Proof.
  destruct (main_items iso_parse sample_feed (read_config (sources_only_raw [culture_src; image_src]))
              sample_now []) as [log' r] eqn:Hrun.
  vm_compute in Hrun.
  destruct r as [out|x]; [|discriminate].
  exists log', out. split; [reflexivity|].
  destruct (config_defaults iso_parse sample_feed (sources_only_raw [culture_src; image_src])
              sample_now [] log' out Hrun) as [H1 H2].
  split; [exact (H1 eq_refl)|exact (H2 eq_refl)].
Defined.

Lemma failed_source_skipped_witness :
  snd (main_items iso_parse sample_feed (sample_cfg 400 [culture_src; down_src; image_src])
         sample_now [])
  = snd (main_items iso_parse sample_feed (mkcfg 7 400 [culture_src; image_src]) sample_now []).
Proof.
  apply (failed_source_skipped iso_parse sample_feed
           (sample_cfg 400 [culture_src; down_src; image_src]) sample_now []
           [culture_src] down_src [image_src] "https://c.example/feed");
    [reflexivity|reflexivity|discriminate|reflexivity].
Defined.

Lemma cutoff_overflow_aborts_witness :
  main_items iso_parse sample_feed (mkcfg 1000000000 400 [culture_src]) sample_now []
  = ([], Raise OverflowError).
Proof.
  apply cutoff_overflow_aborts. left. reflexivity.
Defined.

(** ** Regular expressions of [first_html] and [matches] *)

Section Regex.
Lemma split_gt_len : forall s b a, split_gt s = Some (b, a) -> (String.length a < String.length s)%nat.
Proof.
  induction s as [|c r IH]; intros b a H; simpl in H; [discriminate|].
  destruct (Ascii.eqb c ">"); [injection H as <- <-; simpl; lia|].
  destruct (split_gt r) as [[b' a']|] eqn:E; [|discriminate].
  injection H as <- <-. specialize (IH _ _ eq_refl). simpl. lia.
Qed.

Lemma sdrop_len : forall n s, (String.length (sdrop n s) <= String.length s)%nat.
Proof. induction n; intros [|c r]; simpl; auto. Qed.

Lemma remove_img_fuel_enough : forall f1 f2 s,
  (String.length s < f1)%nat -> (String.length s < f2)%nat ->
  remove_img_fuel f1 s = remove_img_fuel f2 s.
Proof.
  induction f1 as [|f1 IH]; intros [|f2] s H1 H2; try lia.
  destruct s as [|c r]; [reflexivity|]. simpl in H1, H2. cbn [remove_img_fuel strip_tags_fuel].
  destruct (Ascii.eqb c "<" && startswith (lower r) "img").
  - destruct (split_gt (sdrop 3 r)) as [[b a]|] eqn:E.
    + pose proof (split_gt_len _ _ _ E). pose proof (sdrop_len 3 r). apply IH; lia.
    + f_equal. apply IH; lia.
  - f_equal. apply IH; lia.
Qed.

Lemma remove_img_fuel_ok : forall f s, (String.length s < f)%nat -> remove_img_fuel f s = remove_img s.
Proof. intros f s H. apply remove_img_fuel_enough; [exact H|unfold remove_img; lia]. Qed.

Lemma strip_tags_fuel_enough : forall f1 f2 s,
  (String.length s < f1)%nat -> (String.length s < f2)%nat ->
  strip_tags_fuel f1 s = strip_tags_fuel f2 s.
Proof.
  induction f1 as [|f1 IH]; intros [|f2] s H1 H2; try lia.
  destruct s as [|c r]; [reflexivity|]. simpl in H1, H2. cbn [remove_img_fuel strip_tags_fuel].
  destruct (Ascii.eqb c "<").
  - destruct (split_gt r) as [[[|x b] a]|] eqn:E.
    + f_equal. apply IH; lia.
    + pose proof (split_gt_len _ _ _ E). f_equal. apply IH; lia.
    + f_equal. apply IH; lia.
  - f_equal. apply IH; lia.
Qed.

Lemma strip_tags_fuel_ok : forall f s, (String.length s < f)%nat -> strip_tags_fuel f s = strip_tags s.
Proof. intros f s H. apply strip_tags_fuel_enough; [exact H|unfold strip_tags; lia]. Qed.

Lemma py_in_cons_false : forall n c r, py_in (String n EmptyString) (String c r) = false ->
  Ascii.eqb n c = false /\ py_in (String n EmptyString) r = false.
Proof.
  intros n c r H. rewrite py_in_unfold in H. cbn [startswith] in H.
  apply orb_false_iff in H as [H1 H2]. destruct r; rewrite andb_true_r in H1; split; assumption.
Qed.

Lemma eqb_sym_false : forall a b, Ascii.eqb a b = false -> Ascii.eqb b a = false.
Proof.
  intros a b H. destruct (Ascii.eqb_spec b a); [subst; now rewrite Ascii.eqb_refl in H|reflexivity].
Qed.

Lemma split_gt_none : forall a, py_in ">" a = false -> split_gt a = None.
Proof.
  induction a as [|c r IH]; intros H; [reflexivity|].
  apply py_in_cons_false in H as [H1 H2]. simpl.
  rewrite (eqb_sym_false _ _ H1), (IH H2). reflexivity.
Qed.

Lemma split_gt_app : forall a q, py_in ">" a = false -> split_gt (a ++ ">" ++ q) = Some (a, q).
Proof.
  induction a as [|c r IH]; intros q H; [reflexivity|].
  apply py_in_cons_false in H as [H1 H2].
  change (String c r ++ ">" ++ q) with (String c (r ++ ">" ++ q)). cbn [split_gt].
  rewrite (eqb_sym_false _ _ H1), (IH q H2). reflexivity.
Qed.

Lemma lower_app : forall a b, lower (a ++ b) = lower a ++ lower b.
Proof. induction a as [|c r IH]; intros b; simpl; [reflexivity|now rewrite IH]. Qed.

Lemma length_lower : forall s, String.length (lower s) = String.length s.
Proof. induction s; simpl; auto. Qed.

Lemma sdrop_app : forall a b, sdrop (String.length a) (a ++ b) = b.
Proof. induction a; simpl; auto. Qed.

Lemma startswith_app : forall a b, startswith (a ++ b) a = true.
Proof.
  intros a b. apply startswith_spec. exists b. reflexivity.
Qed.

Lemma py_in_tail : forall n c r, py_in n (String c r) = false -> py_in n r = false.
Proof. intros n c r H. rewrite py_in_unfold in H. apply orb_false_iff in H. apply H. Qed.

Lemma py_in_sdrop : forall n k s, py_in n s = false -> py_in n (sdrop k s) = false.
Proof.
  intros n k. induction k as [|k IH]; intros [|c r] H; simpl; auto.
  apply IH. exact (py_in_tail _ _ _ H).
Qed.

Lemma remove_img_cons : forall c r,
  remove_img (String c r)
  = if Ascii.eqb c "<" && startswith (lower r) "img" then
      match split_gt (sdrop 3 r) with
      | Some (_, after) => remove_img after
      | None => String c (remove_img r)
      end
    else String c (remove_img r).
Proof.
  intros c r.
  transitivity (if Ascii.eqb c "<" && startswith (lower r) "img" then
      match split_gt (sdrop 3 r) with
      | Some (_, after) => remove_img_fuel (S (String.length r)) after
      | None => String c (remove_img_fuel (S (String.length r)) r)
      end
    else String c (remove_img_fuel (S (String.length r)) r)); [reflexivity|].
  destruct (Ascii.eqb c "<" && startswith (lower r) "img").
  - destruct (split_gt (sdrop 3 r)) as [[b a]|] eqn:E.
    + pose proof (split_gt_len _ _ _ E). pose proof (sdrop_len 3 r).
      apply remove_img_fuel_ok. lia.
    + reflexivity.
  - reflexivity.
Qed.

Lemma strip_tags_cons : forall c r,
  strip_tags (String c r)
  = if Ascii.eqb c "<" then
      match split_gt r with
      | Some (String _ _, after) => " " ++ strip_tags after
      | _ => String c (strip_tags r)
      end
    else String c (strip_tags r).
Proof.
  intros c r.
  transitivity (if Ascii.eqb c "<" then
      match split_gt r with
      | Some (String _ _, after) => " " ++ strip_tags_fuel (S (String.length r)) after
      | _ => String c (strip_tags_fuel (S (String.length r)) r)
      end
    else String c (strip_tags_fuel (S (String.length r)) r)); [reflexivity|].
  destruct (Ascii.eqb c "<").
  - destruct (split_gt r) as [[[|x b] a]|] eqn:E.
    + reflexivity.
    + pose proof (split_gt_len _ _ _ E). f_equal. apply strip_tags_fuel_ok. lia.
    + reflexivity.
  - reflexivity.
Qed.

(** X9: [re.sub(r'<img[^>]*>', '', html, flags=re.IGNORECASE)] in
    [first_html]: text without [<] is kept; a [<] followed by [img] in any
    case, then anything up to the first [>], is removed; a [<] with no [>]
    after it is kept. *)
Theorem remove_img_spec : forall p q t a,
  (py_in "<" p = false -> remove_img (p ++ q) = p ++ remove_img q)
  /\ (lower t = "img" -> py_in ">" a = false ->
      remove_img ("<" ++ t ++ a ++ ">" ++ q) = remove_img q)
  /\ (py_in ">" q = false -> remove_img ("<" ++ q) = "<" ++ remove_img q).
Proof.
  intros p q t a. split; [|split].
  - induction p as [|c r IH]; intros H; [reflexivity|].
    apply py_in_cons_false in H as [H1 H2].
    change (String c r ++ q) with (String c (r ++ q)).
    rewrite remove_img_cons, (eqb_sym_false _ _ H1). cbn [andb].
    rewrite (IH H2). reflexivity.
  - intros Ht Ha. change ("<" ++ t ++ a ++ ">" ++ q) with (String "<" (t ++ a ++ ">" ++ q)).
    rewrite remove_img_cons, Ascii.eqb_refl, lower_app, Ht. cbn [andb].
    rewrite startswith_app.
    pose proof (length_lower t) as Lt. rewrite Ht in Lt. simpl in Lt.
    rewrite Lt, sdrop_app, split_gt_app by exact Ha. reflexivity.
  - intros Hq. change ("<" ++ q) with (String "<" q).
    rewrite remove_img_cons, Ascii.eqb_refl. cbn [andb].
    assert (E : split_gt (sdrop 3 q) = None) by (apply split_gt_none, py_in_sdrop, Hq).
    destruct (startswith (lower q) "img"); [rewrite E|]; reflexivity.
Qed.

(** X10: [re.sub('<[^>]+>', ' ', value)] in [matches]: text without [<]
    is kept; a tag [<a>] with a non-empty [a] free of [>] becomes one space;
    [<>] is kept; a [<] with no [>] after it is kept. *)
Theorem strip_tags_spec : forall p q a,
  (py_in "<" p = false -> strip_tags (p ++ q) = p ++ strip_tags q)
  /\ (a <> "" -> py_in ">" a = false -> strip_tags ("<" ++ a ++ ">" ++ q) = " " ++ strip_tags q)
  /\ strip_tags ("<>" ++ q) = "<>" ++ strip_tags q
  /\ (py_in ">" q = false -> strip_tags ("<" ++ q) = "<" ++ strip_tags q).
Proof.
  intros p q a. split; [|split; [|split]].
  - induction p as [|c r IH]; intros H; [reflexivity|].
    apply py_in_cons_false in H as [H1 H2].
    change (String c r ++ q) with (String c (r ++ q)).
    rewrite strip_tags_cons, (eqb_sym_false _ _ H1). rewrite (IH H2). reflexivity.
  - intros Hne Ha. change ("<" ++ a ++ ">" ++ q) with (String "<" (a ++ ">" ++ q)).
    rewrite strip_tags_cons, Ascii.eqb_refl, split_gt_app by exact Ha.
    destruct a; [contradiction|reflexivity].
  - change ("<>" ++ q) with (String "<" (String ">" q)).
    rewrite strip_tags_cons, Ascii.eqb_refl. cbn [split_gt]. rewrite Ascii.eqb_refl.
    rewrite strip_tags_cons. reflexivity.
  - intros Hq. change ("<" ++ q) with (String "<" q).
    rewrite strip_tags_cons, Ascii.eqb_refl, split_gt_none by exact Hq. reflexivity.
Qed.

Lemma remove_img_spec_witness :
  remove_img ("<" ++ "IMG" ++ " src=x" ++ ">" ++ "tail") = remove_img "tail".
Proof.
  apply (proj1 (proj2 (remove_img_spec "" "tail" "IMG" " src=x"))); reflexivity.
Defined.

Lemma strip_tags_spec_witness :
  strip_tags ("<" ++ "b" ++ ">" ++ "bold") = " " ++ strip_tags "bold".
Proof.
  apply (proj1 (proj2 (strip_tags_spec "" "bold" "b"))); [discriminate|reflexivity].
Defined.

End Regex.

(** ** [normalize_guid_value] and [guid_for] *)

Section Guid.
Local Open Scope list_scope.


Lemma lstrip_l_spaces : forall w l, forallb is_space w = true -> lstrip_l (w ++ l) = lstrip_l l.
Proof.
  induction w as [|c w IH]; intros l H; [reflexivity|].
  apply andb_true_iff in H as [H1 H2]. simpl. rewrite H1. now apply IH.
Qed.

Lemma lstrip_l_ns : forall x c y, is_space c = false -> lstrip_l (x ++ c :: y) = lstrip_l x ++ c :: y.
Proof.
  induction x as [|a x IH]; intros c y Hc; simpl; [now rewrite Hc|].
  destruct (is_space a); [now apply IH|reflexivity].
Qed.

Lemma rstrip_l_ns : forall x c y, is_space c = false -> rstrip_l (x ++ c :: y) = x ++ c :: rstrip_l y.
Proof.
  intros x c y Hc. unfold rstrip_l. rewrite rev_app_distr. simpl.
  rewrite <- app_assoc. simpl. rewrite lstrip_l_ns by exact Hc.
  rewrite rev_app_distr. simpl. rewrite rev_involutive, <- app_assoc. reflexivity.
Qed.

Lemma forallb_rev : forall (f : ascii -> bool) l, forallb f (rev l) = forallb f l.
Proof.
  intros f l. induction l as [|a l IH]; simpl; [reflexivity|].
  rewrite forallb_app, IH. simpl. now rewrite andb_true_r, andb_comm.
Qed.

Lemma strip_l_spaces : forall m, forallb is_space m = true -> lstrip_l m = [] /\ rstrip_l m = [].
Proof.
  intros m H. split.
  - rewrite <- (app_nil_r m), lstrip_l_spaces by exact H. reflexivity.
  - unfold rstrip_l. rewrite <- (app_nil_r (rev m)), lstrip_l_spaces
      by (rewrite forallb_rev; exact H). reflexivity.
Qed.

Lemma forallb_false_split : forall (f : ascii -> bool) m, forallb f m = false ->
  exists x c y, m = x ++ c :: y /\ f c = false.
Proof.
  intros f. induction m as [|a m IH]; intros H; [discriminate|].
  simpl in H. destruct (f a) eqn:Ha.
  - destruct (IH H) as (x & c & y & -> & Hc). exists (a :: x), c, y. now split.
  - exists [], a, m. now split.
Qed.

Lemma strip_l_comm : forall m, lstrip_l (rstrip_l m) = rstrip_l (lstrip_l m).
Proof.
  intros m. destruct (forallb is_space m) eqn:H.
  - destruct (strip_l_spaces m H) as [-> ->]. reflexivity.
  - destruct (forallb_false_split _ _ H) as (x & c & y & -> & Hc).
    rewrite rstrip_l_ns, lstrip_l_ns, lstrip_l_ns, rstrip_l_ns by exact Hc. reflexivity.
Qed.

Lemma lstrip_l_idem : forall m, lstrip_l (lstrip_l m) = lstrip_l m.
Proof.
  induction m as [|c m IH]; simpl; [reflexivity|].
  destruct (is_space c) eqn:Hc; [exact IH|]. simpl. now rewrite Hc.
Qed.

Lemma rstrip_l_idem : forall m, rstrip_l (rstrip_l m) = rstrip_l m.
Proof. intros m. unfold rstrip_l. now rewrite rev_involutive, lstrip_l_idem. Qed.

Lemma strip_list : forall s,
  list_ascii_of_string (strip s) = rstrip_l (lstrip_l (list_ascii_of_string s)).
Proof.
  intros s. unfold strip, rev_string, rstrip_l.
  rewrite list_ascii_of_string_of_list_ascii, lstrip_list,
    list_ascii_of_string_of_list_ascii, lstrip_list. reflexivity.
Qed.

Lemma list_ascii_inj : forall a b, list_ascii_of_string a = list_ascii_of_string b -> a = b.
Proof.
  intros a b H. rewrite <- (string_of_list_ascii_of_string a), H.
  apply string_of_list_ascii_of_string.
Qed.

Lemma strip_idem : forall s, strip (strip s) = strip s.
Proof.
  intros s. apply list_ascii_inj. rewrite !strip_list.
  rewrite strip_l_comm, lstrip_l_idem, rstrip_l_idem. reflexivity.
Qed.

Lemma space_lower : forall c, is_space c = true -> lower_char c = c.
Proof. intros [[] [] [] [] [] [] [] []]; intros H; try discriminate H; reflexivity. Qed.

Lemma lower_nonspace_chars : forall s c, In c (list_ascii_of_string s) ->
  is_space (lower_char c) = false -> is_space c = false.
Proof.
  intros s c _ H. destruct (is_space c) eqn:Hc; [|reflexivity].
  now rewrite (space_lower c Hc), Hc in H.
Qed.

Lemma list_lower : forall s, list_ascii_of_string (lower s) = map lower_char (list_ascii_of_string s).
Proof. induction s as [|c s IH]; simpl; [reflexivity|now rewrite IH]. Qed.

Local Open Scope string_scope.

(** X11: [normalize_guid_value] drops one leading [urn:uuid:] prefix, in
    any case and with the whitespace around it: the value with the prefix
    normalises like the value without it (when that one has no prefix). *)
Theorem guid_prefix_dropped : forall w0 p w1 u,
  forallb is_space (list_ascii_of_string w0) = true -> lower p = "urn:uuid:" ->
  forallb is_space (list_ascii_of_string w1) = true ->
  startswith (lower (strip u)) "urn:uuid:" = false ->
  normalize_guid_value (w0 ++ p ++ w1 ++ u) = normalize_guid_value u.
Proof.
  intros w0 p w1 u H0 Hp H1 Hu.
  (* the characters of the prefix are not whitespace *)
  assert (Pns : forall c, In c (list_ascii_of_string p) -> is_space c = false).
  { intros c Hc. apply (lower_nonspace_chars p c Hc).
    assert (Hl : In (lower_char c) (list_ascii_of_string (lower p)))
      by (rewrite list_lower; now apply in_map).
    rewrite Hp in Hl. simpl in Hl.
    repeat (destruct Hl as [<-|Hl]; [reflexivity|]). contradiction. }
  assert (Lp : String.length p = 9%nat)
    by (rewrite <- length_lower, Hp; reflexivity).
  destruct (list_ascii_of_string p) as [|c0 P0] eqn:EP.
  { destruct p; [discriminate|discriminate]. }
  destruct (exists_last (l := c0 :: P0) ltac:(discriminate)) as (P' & c & EP').
  assert (Hc0 : is_space c0 = false) by (apply Pns; now left).
  assert (Hc : is_space c = false) by (apply Pns; rewrite EP'; apply in_or_app; right; now left).
  set (R := app (list_ascii_of_string w1) (list_ascii_of_string u)).
  (* [strip] of the whole value keeps the prefix in front *)
  assert (Sv : strip (w0 ++ p ++ w1 ++ u) = p ++ string_of_list_ascii (rstrip_l R)).
  { apply list_ascii_inj.
    rewrite strip_list, !list_ascii_of_string_append, lstrip_l_spaces by exact H0.
    rewrite EP. change (app (c0 :: P0) ?x) with (c0 :: app P0 x). cbn [lstrip_l]. rewrite Hc0.
    change (c0 :: app P0 ?x) with (app (c0 :: P0) x). rewrite EP', <- app_assoc.
    cbn [app]. rewrite rstrip_l_ns by exact Hc.
    rewrite list_ascii_of_string_of_list_ascii, <- app_assoc. reflexivity. }
  assert (Hv : w0 ++ p ++ w1 ++ u <> "").
  { intros E. apply (f_equal String.length) in E. rewrite !length_append in E.
    simpl in E. lia. }
  rewrite (normalize_guid_value_spec _ Hv), Sv, lower_app, Hp, startswith_app.
  rewrite <- Lp, sdrop_app.
  transitivity (strip u).
  - apply list_ascii_inj. rewrite !strip_list, list_ascii_of_string_of_list_ascii.
    rewrite strip_l_comm, rstrip_l_idem. unfold R.
    rewrite lstrip_l_spaces by exact H1. reflexivity.
  - destruct (String.eqb_spec u "") as [->|Hne]; [reflexivity|].
    rewrite (normalize_guid_value_spec _ Hne), Hu. symmetry. apply strip_idem.
Qed.

Lemma guid_from_keys_prefix : forall w0 p w1 u rest,
  forallb is_space (list_ascii_of_string w0) = true -> lower p = "urn:uuid:" ->
  forallb is_space (list_ascii_of_string w1) = true ->
  startswith (lower (strip u)) "urn:uuid:" = false ->
  guid_from_keys (Some (w0 ++ p ++ w1 ++ u) :: rest) = guid_from_keys (Some u :: rest).
Proof.
  intros w0 p w1 u rest H0 Hp H1 Hu.
  assert (Hv : String.eqb (w0 ++ p ++ w1 ++ u) "" = false).
  { apply String.eqb_neq. intros E. apply (f_equal String.length) in E.
    rewrite !length_append, <- (length_lower p), Hp in E. simpl in E. lia. }
  cbn [guid_from_keys truthy or_str]. rewrite Hv. cbn [negb].
  rewrite (guid_prefix_dropped w0 p w1 u H0 Hp H1 Hu).
  destruct (String.eqb_spec u "") as [->|Hne]; reflexivity.
Qed.

(** X12: [guid_for]: two entries whose [id] differs only by a
    [urn:uuid:] prefix (and that agree on [guid], [link] and [title]) get
    the same identifier. *)
Theorem guid_for_prefix : forall e1 e2 w0 p w1 u,
  forallb is_space (list_ascii_of_string w0) = true -> lower p = "urn:uuid:" ->
  forallb is_space (list_ascii_of_string w1) = true ->
  startswith (lower (strip u)) "urn:uuid:" = false ->
  e_id e1 = Some (w0 ++ p ++ w1 ++ u) -> e_id e2 = Some u ->
  e_guid e1 = e_guid e2 -> e_link e1 = e_link e2 -> e_title e1 = e_title e2 ->
  guid_for e1 = guid_for e2.
Proof.
  intros e1 e2 w0 p w1 u H0 Hp H1 Hu E1 E2 Eg El Et. unfold guid_for, guid_base.
  rewrite E1, E2, Eg, El, Et, (guid_from_keys_prefix w0 p w1 u _ H0 Hp H1 Hu). reflexivity.
Qed.

Lemma guid_prefix_dropped_witness :
  normalize_guid_value (" " ++ "URN:Uuid:" ++ " " ++ "1234-5678") = normalize_guid_value "1234-5678".
Proof. apply guid_prefix_dropped; reflexivity. Defined.

Lemma guid_for_prefix_witness :
  guid_for (sample_entry "Culture" " URN:UUID: 1234" "2026-10-18T10:00:00Z")
  = guid_for (sample_entry "Culture" "1234" "2026-10-18T10:00:00Z").
Proof. apply (guid_for_prefix _ _ " " "URN:UUID:" " " "1234"); reflexivity. Defined.

End Guid.

(** ** The RSS document and the file *)

Section Rss.
Lemma rbind_ok : forall {A B} (m : result A) (f : A -> result B) b,
  rbind m f = Ok b -> exists a, m = Ok a /\ f a = Ok b.
Proof. intros A B [a|x] f b H; [now exists a|discriminate]. Qed.

Ltac peel H := repeat (apply rbind_ok in H; destruct H as (? & ? & H)).

Lemma set_text_ok : forall s t, set_text s = Ok t -> t = XText s.
Proof.
  intros s t H. unfold set_text, utf8_check in H.
  destruct (forallb xml_char (list_ascii_of_string s)); [|discriminate].
  now injection H as <-.
Qed.

Lemma item_node_shape : forall it n, item_node it = Ok n ->
  xtag n = "item" /\ item_guid_text n = Some (it_guid it).
Proof.
  intros it n H. unfold item_node in H. peel H.
  injection H as <-. match goal with Hg : set_text (it_guid it) = Ok _ |- _ =>
    apply set_text_ok in Hg; subst end.
  split; reflexivity.
Qed.

Lemma item_nodes_shape : forall l ns, item_nodes l = Ok ns ->
  filter (fun n => String.eqb (xtag n) "item") ns = ns
  /\ map item_guid_text ns = map (fun it => Some (it_guid it)) l.
Proof.
  induction l as [|it l IH]; intros ns H; simpl in H.
  - injection H as <-. split; reflexivity.
  - peel H. injection H as <-.
    match goal with
    | H1 : item_node it = Ok ?n, H2 : item_nodes l = Ok ?r |- _ =>
        destruct (item_node_shape _ _ H1) as [Ht Hg]; destruct (IH _ H2) as [Hf Hm]
    end.
    simpl. rewrite Ht, Hf, Hg, Hm. split; reflexivity.
Qed.

Lemma build_rss_items : forall ch bn l doc, build_rss ch bn l = Ok doc ->
  exists ns, item_nodes l = Ok ns /\ channel_items doc = ns.
Proof.
  intros ch bn l doc H. unfold build_rss in H. peel H. injection H as <-.
  match goal with H : item_nodes l = Ok ?ns |- _ => exists ns; split; [exact H|] end.
  destruct (item_nodes_shape _ _ ltac:(eassumption)) as [Hf _].
  unfold channel_items. cbn [xkids]. cbn [filter leaf xtag]. rewrite filter_app.
  match goal with
  | H : (if truthy (ch_self_url ch) then _ else Ok []) = Ok ?s |- _ =>
      destruct (truthy (ch_self_url ch)); [peel H; injection H as <-|injection H as <-]
  end; exact Hf.
Qed.

(** X13: in the written feed the [<guid>] texts of the [<item>]s are the
    run's identifiers, in the run's order, and no two are equal. *)
Theorem feed_guids : forall dateparse fetch_feed cfg now_us log log' out ch bn doc,
  main_items dateparse fetch_feed cfg now_us log = (log', Ok out) ->
  build_rss ch bn out = Ok doc ->
  map item_guid_text (channel_items doc) = map (fun it => Some (it_guid it)) out
  /\ NoDup (map item_guid_text (channel_items doc)).
Proof.
  intros dateparse fetch_feed cfg now_us log log' out ch bn doc H Hb.
  destruct (build_rss_items _ _ _ _ Hb) as (ns & Hn & ->).
  destruct (item_nodes_shape _ _ Hn) as [_ Hm]. rewrite Hm. split; [reflexivity|].
  destruct (main_items_ok _ _ _ _ _ _ _ H) as (c & P & _ & _ & ->).
  rewrite <- (map_map it_guid (fun g => Some g)).
  apply NoDup_map_NoDup_ForallPairs; [intros x y _ _ E; now injection E|].
  apply aggregate_NoDup. rewrite map_guid_pbuild. apply dedup_by_NoDup.
Qed.

Lemma utf8_check_ok : forall s t, utf8_check s = Ok t -> forallb xml_char (list_ascii_of_string s) = true.
Proof.
  intros s t H. unfold utf8_check in H.
  destruct (forallb xml_char (list_ascii_of_string s)); [reflexivity|discriminate].
Qed.

Lemma set_text_chars : forall s t, set_text s = Ok t -> forallb xml_char (list_ascii_of_string s) = true.
Proof. intros s t H. unfold set_text in H. peel H. eapply utf8_check_ok; eassumption. Qed.

Lemma cdata_ok : forall s t, cdata s = Ok t ->
  forallb xml_char (list_ascii_of_string s) = true /\ py_in "]]>" s = false.
Proof.
  intros s t H. unfold cdata in H. peel H.
  match goal with Hu : utf8_check s = Ok ?v |- _ =>
    pose proof (utf8_check_ok _ _ Hu); unfold utf8_check in Hu end.
  destruct (forallb xml_char (list_ascii_of_string s)); [|discriminate].
  injection H0 as <-. split; [reflexivity|]. destruct (py_in "]]>" s); [discriminate|reflexivity].
Qed.


Lemma link_node_chars : forall s x,
  (if String.eqb s "" then Ok [] else y <-? set_text s ;; Ok [leaf "link" y]) = Ok x ->
  forallb xml_char (list_ascii_of_string s) = true.
Proof.
  intros s x H. destruct (String.eqb_spec s "") as [->|_]; [reflexivity|].
  peel H. eapply set_text_chars; eassumption.
Qed.

Lemma enclosure_node_chars : forall o x,
  (if truthy o then
     u <-? utf8_check (or_str o "") ;;
     Ok [XElem "enclosure" [("url", u); ("type", "image/jpeg")] XNone []]
   else Ok []) = Ok x ->
  forallb xml_char (list_ascii_of_string (or_str o "")) = true.
Proof.
  intros o x H. destruct (truthy o) eqn:Ht.
  - peel H. eapply utf8_check_ok; eassumption.
  - destruct o as [v|]; [|reflexivity]. unfold truthy in Ht. simpl in Ht.
    destruct (String.eqb_spec v "") as [->|E]; [reflexivity|discriminate].
Qed.

Lemma item_node_text_ok : forall it n, item_node it = Ok n -> item_text_ok it = true.
Proof.
  intros it n H. unfold item_node in H. peel H. unfold item_text_ok.
  repeat match goal with
  | Hs : set_text ?s = Ok _ |- _ => apply set_text_chars in Hs; rewrite ?Hs
  | Hc : cdata ?s = Ok _ |- _ => apply cdata_ok in Hc; destruct Hc as [Hc1 Hc2]; rewrite Hc1, Hc2
  | Hl : (if String.eqb _ "" then _ else _) = Ok _ |- _ => apply link_node_chars in Hl; rewrite Hl
  | He : (if truthy _ then _ else _) = Ok _ |- _ => apply enclosure_node_chars in He; rewrite He
  end. reflexivity.
Qed.

Lemma item_nodes_all_ok : forall l ns, item_nodes l = Ok ns ->
  forall it, In it l -> item_text_ok it = true.
Proof.
  induction l as [|a l IH]; intros ns H it Hin; [destruct Hin|]. simpl in H. peel H.
  destruct Hin as [<-|Hin]; [eapply item_node_text_ok; eassumption|].
  eapply IH; eassumption.
Qed.

(** X14: [main] writes no feed when an item's [html] holds the CDATA
    terminator, or its guid, title, link, html, category or image URL holds
    a character XML forbids: building the tree raises. *)
Theorem build_rss_rejects : forall ch bn l it,
  In it l -> item_text_ok it = false -> exists x, build_rss ch bn l = Raise x.
Proof.
  intros ch bn l it Hin Hbad. destruct (build_rss ch bn l) as [doc|x] eqn:E; [|now exists x].
  destruct (build_rss_items _ _ _ _ E) as (ns & Hn & _).
  rewrite (item_nodes_all_ok _ _ Hn it Hin) in Hbad. discriminate.
Qed.

Lemma first_line_app : forall a b, forallb (fun c => negb ((nat_of_ascii c =? 10)%nat || (nat_of_ascii c =? 13)%nat)) (list_ascii_of_string a) = true ->
  first_line (a ++ b) = a ++ first_line b.
Proof.
  induction a as [|c a IH]; intros b H; [reflexivity|]. simpl in H.
  apply andb_true_iff in H as [H1 H2]. apply negb_true_iff in H1. simpl. rewrite H1, (IH b H2). reflexivity.
Qed.

(** X15: the declaration fix turns lxml's single-quoted declaration into
    the double-quoted one, and the self-check then prints no warning. *)
Theorem prolog_round_trip : forall body,
  fix_prolog (lxml_declaration ++ body) = expected_prolog ++ body
  /\ prolog_warning (fix_prolog (lxml_declaration ++ body)) = false.
Proof.
  intros body.
  assert (E : fix_prolog (lxml_declaration ++ body) = expected_prolog ++ body) by reflexivity.
  split; [exact E|]. rewrite E. unfold prolog_warning.
  rewrite first_line_app by reflexivity.
  assert (Hs : strip (expected_prolog ++ first_line body)
              = expected_prolog ++ string_of_list_ascii (rstrip_l (list_ascii_of_string (first_line body)))).
  { apply list_ascii_inj. rewrite strip_list, list_ascii_of_string_append.
    set (L := list_ascii_of_string (first_line body)).
    set (E0 := removelast (list_ascii_of_string expected_prolog)).
    assert (HE : list_ascii_of_string expected_prolog = app E0 [">"%char]) by reflexivity.
    rewrite HE, <- app_assoc. cbn [app].
    rewrite lstrip_l_ns by reflexivity.
    replace (lstrip_l E0) with E0 by reflexivity.
    rewrite rstrip_l_ns by reflexivity.
    rewrite list_ascii_of_string_append, list_ascii_of_string_of_list_ascii, HE, <- app_assoc.
    reflexivity. }
  rewrite Hs, startswith_app. reflexivity.
Qed.

Lemma feed_guids_witness :
  exists log' out doc,
    main_items iso_parse sample_feed (sample_cfg 400 [culture_src; image_src]) sample_now []
    = (log', Ok out)
    /\ build_rss (read_channel (sources_only_raw [])) sample_now out = Ok doc
    /\ map item_guid_text (channel_items doc) = map (fun it => Some (it_guid it)) out
    /\ NoDup (map item_guid_text (channel_items doc)).
Proof.
  destruct (main_items iso_parse sample_feed (sample_cfg 400 [culture_src; image_src])
              sample_now []) as [log' r] eqn:Hrun.
  vm_compute in Hrun.
  destruct r as [out|x]; [|discriminate].
  destruct (build_rss (read_channel (sources_only_raw [])) sample_now out) as [doc|x] eqn:Hb.
  2: { injection Hrun as _ Ho. subst out. vm_compute in Hb. discriminate. }
  exists log', out, doc. split; [reflexivity|]. split; [exact Hb|].
  exact (feed_guids iso_parse sample_feed (sample_cfg 400 [culture_src; image_src]) sample_now []
           log' out _ _ doc Hrun Hb).
Defined.

Lemma build_rss_rejects_witness :
  exists x, build_rss (read_channel (sources_only_raw [])) sample_now [cdata_item] = Raise x.
Proof.
  apply (build_rss_rejects _ _ _ cdata_item); [left; reflexivity|vm_compute; reflexivity].
Defined.

End Rss.
